(** * buaa-daily-checkin: the worker of [src/index.ts]

    A shallow embedding of the Cloudflare worker that registers users over a
    Telegram bot and submits their daily check-in: the record codec
    ([UserInfo], [checkin_hh], [checkin_mm]), the store access ([info_of],
    [check_with_user]), the portal calls ([login], [checkin]), the sweep
    ([do_scheduled]) and the webhook handler ([fetch]).

    Conventions of the model.
    - JavaScript numbers that the worker computes with (chat ids, hours,
      minutes, the skip counter) are integers, modelled by [Z]: Telegram's
      chat ids are integers of at most 52 significant bits, and integer
      arithmetic on doubles is exact below 2^53. [NaN] is kept apart
      because the unary plus of the source produces it; a literal is read
      exactly, without the rounding to a double. Coordinates are only
      stored and copied, they are rationals.
    - The KV namespace is a finite map from key strings to stored texts; a
      stored text is described by what [JSON.parse] and [UserInfo.decode]
      make of it ([kv_value]), so [JSON.stringify] of a record is [InfoJson].
    - Everything the worker does to the outside is appended to a trace of
      [event]s; what the outside answers is read from [Env]. Every HTTP
      call and every call of the namespace gets an answer: a failure of
      the network is outside the model.
    - [async] code is sequential here: every call is awaited in the source. *)

From Stdlib Require Import ZArith QArith Ascii String List Lia.
From Stdlib Require Import DecimalString DecimalZ.
From stdpp Require Import gmap strings.

Local Open Scope Z_scope.

(** ** Numbers and strings of the runtime *)

(** A number as the unary plus yields it: an integer, or NaN. *)
Inductive number :=
| Int (z : Z)
| NaN.

(** [`${n}`]: the decimal text of a number. *)
Definition string_of_number (n : number) : string :=
  match n with
  | Int z => NilZero.string_of_int (Z.to_int z)
  | NaN => "NaN"
  end.

(** *** The unary plus on strings

    [+s] reads [s] as a numeric literal between optional white space: a
    decimal literal with an optional sign, fraction and exponent, or an
    unsigned literal in radix 16, 8 or 2; white space alone is 0 and
    everything else is NaN. The literal is read exactly. A value that is
    not an integer is NaN here (the codecs below refuse both alike), and so
    is [Infinity]. *)

(** The code of a byte. *)
Definition code (c : ascii) : Z := Z.of_N (N_of_ascii c).

(** White space and line terminators, in one, two and three bytes of UTF-8:
    U+0009 to U+000D and U+0020; U+00A0; U+1680, U+2000 to U+200A, U+2028,
    U+2029, U+202F, U+205F, U+3000 and U+FEFF. *)
Definition space1 (a : ascii) : bool :=
  let n := code a in
  ((9 <=? n) && (n <=? 13)) || (n =? 32).

Definition space2 (a b : ascii) : bool :=
  (code a =? 194) && (code b =? 160).

Definition space3 (a b c : ascii) : bool :=
  let x := code a in
  let y := code b in
  let z := code c in
  ((x =? 225) && (y =? 154) && (z =? 128))
  || ((x =? 226) && (y =? 128)
      && (((128 <=? z) && (z <=? 138)) || (z =? 168) || (z =? 169) || (z =? 175)))
  || ((x =? 226) && (y =? 129) && (z =? 159))
  || ((x =? 227) && (y =? 128) && (z =? 128))
  || ((x =? 239) && (y =? 187) && (z =? 191)).

Fixpoint trim_left (s : string) : string :=
  match s with
  | EmptyString => EmptyString
  | String a r =>
      if space1 a then trim_left r
      else match r with
           | String b r1 =>
               if space2 a b then trim_left r1
               else match r1 with
                    | String c r2 => if space3 a b c then trim_left r2 else s
                    | EmptyString => s
                    end
           | EmptyString => s
           end
  end.

(** Nothing but white space. *)
Definition blank (s : string) : bool :=
  match trim_left s with
  | EmptyString => true
  | _ => false
  end.

Fixpoint trim_right (s : string) : string :=
  match s with
  | EmptyString => EmptyString
  | String a r => if blank s then EmptyString else String a (trim_right r)
  end.

Definition trim (s : string) : string := trim_right (trim_left s).

(** The value of a digit in a radix up to 16. *)
Definition digit_value (radix : Z) (c : ascii) : option Z :=
  let n := code c in
  let v := if (48 <=? n) && (n <=? 57) then n - 48
           else if (97 <=? n) && (n <=? 102) then n - 87
           else if (65 <=? n) && (n <=? 70) then n - 55
           else radix in
  if v <? radix then Some v else None.

(** The leading decimal digits of [s], appended to the digits in [acc]:
    their value, how many they are, and the rest of [s]. *)
Fixpoint take_digits (acc : Z) (n : nat) (s : string) : Z * nat * string :=
  match s with
  | EmptyString => (acc, n, EmptyString)
  | String c r =>
      match digit_value 10 c with
      | Some d => take_digits (acc * 10 + d) (S n) r
      | None => (acc, n, s)
      end
  end.

(** At least one digit of the radix and nothing else. *)
Fixpoint radix_digits (radix acc : Z) (seen : bool) (s : string) : option Z :=
  match s with
  | EmptyString => if seen then Some acc else None
  | String c r =>
      match digit_value radix c with
      | Some d => radix_digits radix (acc * radix + d) true r
      | None => None
      end
  end.

(** [0x], [0o] and [0b] literals, in either case of the letter. *)
Definition radix_literal (t : string) : option Z :=
  match t with
  | String "0" (String c r) =>
      if Ascii.eqb c "x" || Ascii.eqb c "X" then radix_digits 16 0 false r
      else if Ascii.eqb c "o" || Ascii.eqb c "O" then radix_digits 8 0 false r
      else if Ascii.eqb c "b" || Ascii.eqb c "B" then radix_digits 2 0 false r
      else None
  | _ => None
  end.

(** Nothing, or [e] or [E] and a signed integer, up to the end: the
    exponent. *)
Definition exponent_part (s : string) : option Z :=
  match s with
  | EmptyString => Some 0
  | String c r =>
      if Ascii.eqb c "e" || Ascii.eqb c "E" then
        let signed :=
          match r with
          | String "+" r' => (1, r')
          | String "-" r' => (-1, r')
          | _ => (1, r)
          end in
        match take_digits 0 0 (snd signed) with
        | (v, S _, EmptyString) => Some (fst signed * v)
        | _ => None
        end
      else None
  end.

(** An unsigned decimal literal, as its digits [m] and a power of ten [e]:
    its value is [m * 10 ^ e]. There are digits before the point or behind
    it. *)
Definition unsigned_decimal (s : string) : option (Z * Z) :=
  match take_digits 0 0 s with
  | (i, ni, String "." r1) =>
      match take_digits i 0 r1 with
      | (m, nf, r2) =>
          match ni, nf with
          | O, O => None
          | _, _ =>
              match exponent_part r2 with
              | Some e => Some (m, e - Z.of_nat nf)
              | None => None
              end
          end
      end
  | (i, S _, r) =>
      match exponent_part r with
      | Some e => Some (i, e)
      | None => None
      end
  | (_, O, _) => None
  end.

Definition decimal_literal (t : string) : option (Z * Z) :=
  match t with
  | String "+" r => unsigned_decimal r
  | String "-" r =>
      match unsigned_decimal r with
      | Some (m, e) => Some (- m, e)
      | None => None
      end
  | _ => unsigned_decimal t
  end.

(** [m * 10 ^ e] when that is an integer. *)
Definition integer_of (m e : Z) : number :=
  if 0 <=? e then Int (m * 10 ^ e)
  else if m mod 10 ^ (- e) =? 0 then Int (m / 10 ^ (- e))
  else NaN.

(** A numeric literal without white space around it. *)
Definition numeric_literal (t : string) : number :=
  match t with
  | EmptyString => Int 0
  | _ =>
      match radix_literal t with
      | Some z => Int z
      | None =>
          match decimal_literal t with
          | Some (m, e) => integer_of m e
          | None => NaN
          end
      end
  end.

(** [+s]. A decimal integer with an optional minus sign, which is what the
    worker prints, is read first. *)
Definition to_number (s : string) : number :=
  match s with
  | EmptyString => Int 0
  | _ => match NilZero.int_of_string s with
         | Some d => Int (Z.of_int d)
         | None => numeric_literal (trim s)
         end
  end.

(** [s.split(sep)] for a one-character separator: the pieces between the
    occurrences of [sep], one more than there are occurrences. *)
Fixpoint split (sep : ascii) (s : string) : list string :=
  match s with
  | EmptyString => [EmptyString]
  | String c rest =>
      if Ascii.eqb c sep then EmptyString :: split sep rest
      else match split sep rest with
           | [] => [String c EmptyString]
           | piece :: pieces => String c piece :: pieces
           end
  end.

(** [s.startsWith(p)] *)
Definition startsWith (s p : string) : bool := String.prefix p s.

(** [`user:${id}`] *)
Definition user_key (id : number) : string := "user:" +:+ string_of_number id.

(** [+key.name.split(":")[1]]; a missing piece is [undefined], whose unary
    plus is NaN. *)
Definition id_of_key (name : string) : number :=
  match split ":" name !! 1%nat with
  | Some piece => to_number piece
  | None => NaN
  end.

(** ** Codecs and records *)

(** [checkin_hh]: the union of the literals 16, 17, 18 and 19. *)
Definition checkin_hh_is (z : Z) : bool :=
  (z =? 16) || (z =? 17) || (z =? 18) || (z =? 19).

(** [checkin_mm]: the union of the literals 0 and 30. *)
Definition checkin_mm_is (z : Z) : bool :=
  (z =? 0) || (z =? 30).

(** [checkin_hh.decode(u)] on a number: [Some] is Right, [None] is Left. *)
Definition checkin_hh_decode (u : number) : option Z :=
  match u with
  | Int z => if checkin_hh_is z then Some z else None
  | NaN => None
  end.

(** [checkin_mm.decode(u)] on a number. *)
Definition checkin_mm_decode (u : number) : option Z :=
  match u with
  | Int z => if checkin_mm_is z then Some z else None
  | NaN => None
  end.

(** [TelegramMessageLocation] *)
Record TelegramMessageLocation := {
  longitude : Q;
  latitude : Q;
}.

(** The object behind [UserInfo]: every field present with its primitive
    type. [hh] and [mm] are any integers here; [UserInfo_decode] checks
    them against [checkin_hh] and [checkin_mm]. *)
Record UserInfo := {
  username : string;
  password : string;
  chat_id : Z;
  hh : Z;
  mm : Z;
  skip : Z;
  area : string;
  city : string;
  province : string;
  address : string;
  location : TelegramMessageLocation;
  in_campus : bool;
}.

(** Field assignments [info.f = v]. *)
Definition set_hh (info : UserInfo) (v : Z) : UserInfo :=
  {| username := username info; password := password info; chat_id := chat_id info;
     hh := v; mm := mm info; skip := skip info; area := area info; city := city info;
     province := province info; address := address info; location := location info;
     in_campus := in_campus info |}.

Definition set_mm (info : UserInfo) (v : Z) : UserInfo :=
  {| username := username info; password := password info; chat_id := chat_id info;
     hh := hh info; mm := v; skip := skip info; area := area info; city := city info;
     province := province info; address := address info; location := location info;
     in_campus := in_campus info |}.

Definition set_skip (info : UserInfo) (v : Z) : UserInfo :=
  {| username := username info; password := password info; chat_id := chat_id info;
     hh := hh info; mm := mm info; skip := v; area := area info; city := city info;
     province := province info; address := address info; location := location info;
     in_campus := in_campus info |}.

Definition set_in_campus (info : UserInfo) (v : bool) : UserInfo :=
  {| username := username info; password := password info; chat_id := chat_id info;
     hh := hh info; mm := mm info; skip := skip info; area := area info; city := city info;
     province := province info; address := address info; location := location info;
     in_campus := v |}.

Definition set_city (info : UserInfo) (v : string) : UserInfo :=
  {| username := username info; password := password info; chat_id := chat_id info;
     hh := hh info; mm := mm info; skip := skip info; area := area info; city := v;
     province := province info; address := address info; location := location info;
     in_campus := in_campus info |}.

Definition set_province (info : UserInfo) (v : string) : UserInfo :=
  {| username := username info; password := password info; chat_id := chat_id info;
     hh := hh info; mm := mm info; skip := skip info; area := area info; city := city info;
     province := v; address := address info; location := location info;
     in_campus := in_campus info |}.

Definition set_area (info : UserInfo) (v : string) : UserInfo :=
  {| username := username info; password := password info; chat_id := chat_id info;
     hh := hh info; mm := mm info; skip := skip info; area := v; city := city info;
     province := province info; address := address info; location := location info;
     in_campus := in_campus info |}.

Definition set_address (info : UserInfo) (v : string) : UserInfo :=
  {| username := username info; password := password info; chat_id := chat_id info;
     hh := hh info; mm := mm info; skip := skip info; area := area info; city := city info;
     province := province info; address := v; location := location info;
     in_campus := in_campus info |}.

Definition set_location (info : UserInfo) (v : TelegramMessageLocation) : UserInfo :=
  {| username := username info; password := password info; chat_id := chat_id info;
     hh := hh info; mm := mm info; skip := skip info; area := area info; city := city info;
     province := province info; address := address info; location := v;
     in_campus := in_campus info |}.

(** A text held by the KV namespace, by what the worker's reader makes of it. *)
Inductive kv_value :=
| Unparsable (text : string)   (* [JSON.parse] throws *)
| OtherJson (text : string)    (* JSON without the fields and primitive types of [UserInfo] *)
| InfoJson (raw : UserInfo).   (* JSON of an object with the fields of [UserInfo] *)

(** [UserInfo.decode(json)] on parsed JSON: [Some] is Right, [None] is Left. *)
Definition UserInfo_decode (json : kv_value) : option UserInfo :=
  match json with
  | InfoJson raw =>
      if checkin_hh_is (hh raw) && checkin_mm_is (mm raw) then Some raw else None
  | _ => None
  end.

(** [GaodeResp]: [city] is a string or an array of strings. *)
Inductive city_field :=
| CityString (s : string)
| CityArray (l : list string).

Record GaodeResp := {
  formatted_address : string;
  ac_province : string;
  ac_city : city_field;
  ac_district : string;
}.

(** A response body read as [BuaaResp]. *)
Inductive body :=
| NotJson (text : string)     (* parsing the body throws *)
| NoBuaaResp (json : string)  (* JSON on which [BuaaResp.decode] is Left *)
| BuaaResp (e : Z) (m : string).

Record login_response := {
  login_body : body;
  set_cookie : option string;
}.

(** The geocoder's answer: a body that is not JSON, the JSON value [null],
    or another JSON value, with the text of its [regeocode] member and what
    [GaodeResp.decode] makes of the whole. *)
Inductive gaode_response :=
| GaodeNotJson (text : string)
| GaodeNull
| GaodeJson (regeocode : string) (decoded : option GaodeResp).

(** [TelegramUpdate]: [message.chat.id], and the optional [message.text] and
    [message.location]. *)
Record TelegramUpdate := {
  message_chat_id : Z;
  message_text : option string;
  message_location : option TelegramMessageLocation;
}.

(** The body of a webhook request. *)
Inductive Request :=
| BodyNotJson (text : string)
| BodyJson (json : string) (decoded : option TelegramUpdate).

Inductive Response :=
| Success
| EndWithError.

(** ** Exceptions, events, the world *)

Inductive exn :=
| InvalidGaodeResp (json : string)
| InvalidUserInfo (json : kv_value)
| UserNotFound (id : number)
| LoginError (message : string)
| WrongCommandError (command : string)
| WrongCheckinTime (checkin_time : string)
| NotTelegramUpdateError (json : string)
| SyntaxError (message : string)
| Error (message : string)
| TypeError (message : string).

(** The text of a Telegram message: plain, or a record pretty-printed in a
    json code block. *)
Inductive message :=
| Text (s : string)
| Json (info : UserInfo).

Inductive event :=
| Send (chat : Z) (msg : message) (markdown : bool)
| ConsoleError (msg : string)
| ConsoleErrorJson (json : kv_value)
| ConsoleLog (msg : string)
| PortalLogin (user pass : string)
| GaodeLookup (loc : TelegramMessageLocation)
| PortalSave (cookies : string) (form : list (string * string)).

(** One page of [env.kv.list]: its keys, and the page behind its cursor
    unless [list_complete]. *)
Inductive listing :=
| LastPage (keys : list string)
| MorePages (keys : list string) (cursor : listing).

Record World := {
  kv : gmap string kv_value;
  trace : list event;
}.

(** What the worker is given: the pages [env.kv.list] returns for the prefix
    ["user:"], the answers of the portal and of the geocoder, and the clock. *)
Record Env := {
  kv_list : listing;
  portal_login : string -> string -> login_response;
  gaode_regeo : TelegramMessageLocation -> gaode_response;
  portal_save : string -> list (string * string) -> body;
  utc_hours : Z;
  utc_minutes : Z;
}.

(** ** State and exceptions *)

Inductive result (A : Type) :=
| Ok (a : A)
| Throw (e : exn).
Arguments Ok {A} a.
Arguments Throw {A} e.

Definition M (A : Type) : Type := World -> result A * World.

Definition ret {A} (a : A) : M A := fun w => (Ok a, w).

Definition throw {A} (e : exn) : M A := fun w => (Throw e, w).

Definition bind {A B} (m : M A) (k : A -> M B) : M B :=
  fun w => match m w with
           | (Ok a, w') => k a w'
           | (Throw e, w') => (Throw e, w')
           end.

(** [try { m } catch (e) { handler e }] *)
Definition try_catch {A} (m : M A) (handler : exn -> M A) : M A :=
  fun w => match m w with
           | (Ok a, w') => (Ok a, w')
           | (Throw e, w') => handler e w'
           end.

Notation "'let*' x := m 'in' k" := (bind m (fun x => k))
  (at level 10, x name, m at level 100, k at level 200).
Notation "m ;; k" := (bind m (fun _ => k))
  (at level 100, k at level 200, right associativity).

Definition emit (e : event) : M unit :=
  fun w => (Ok tt, {| kv := kv w; trace := trace w ++ [e] |}).

Definition kv_get (key : string) : M (option kv_value) :=
  fun w => (Ok (kv w !! key), w).

Definition kv_put (key : string) (value : kv_value) : M unit :=
  fun w => (Ok tt, {| kv := <[key := value]> (kv w); trace := trace w |}).

Definition kv_delete (key : string) : M unit :=
  fun w => (Ok tt, {| kv := delete key (kv w); trace := trace w |}).

(** ** The worker *)

Definition help : string :=
"
- /start: help messages
- /info: stored information about current user
- /login <username> <password>: store the buaa credential and enable daily checkin
- /checkin_at <time>: set checkin time, the hours should between 16 and 19, the minutes should be 0 or 30. Default: 17:30. Example: /checkin_at 18:30. 
    - /in_campus: set in campus     
- /out_of_campus: set out of campus
- /delete: erase stored information about current user
- /skip: add one skip day
- /no_skip: cancel one skip day
- /checkin: checkin now
- /schedule: trigger the schedule event

To update your location, send a location to this bot.

The bot responds to every valid command with the current stored information about current user in JSON format.
".

(** [login]: one POST to the portal; the session cookies, or an exception. *)
Definition login (env : Env) (user pass : string) : M string :=
  emit (PortalLogin user pass) ;;
  let result := portal_login env user pass in
  match login_body result with
  | NotJson text => throw (SyntaxError text)
  | NoBuaaResp _ => throw (LoginError "Invalid Login Response")
  | BuaaResp e m =>
      if e =? 1 then throw (LoginError ("Login Failed " +:+ m))
      else match set_cookie result with
           | None => throw (LoginError "set-cookie not found")
           | Some cookies => ret cookies
           end
  end.

(** [send_message_to]: one POST to the bot API. (A failed delivery is only
    written to the console; that line is left out of the trace.) *)
Definition send_message_to (env : Env) (chat : Z) (msg : message) (markdown : bool) : M unit :=
  emit (Send chat msg markdown).

(** The form of [checkin] before the campus fields are appended. *)
Definition checkin_form (info : UserInfo) (regeocode : string) : list (string * string) :=
  [("brsfzc", "1"); ("tw", ""); ("sfcxzz", ""); ("zdjg", ""); ("zdjg_other", "");
   ("sfgl", ""); ("gldd", ""); ("gldd_other", ""); ("glyy", ""); ("glyy_other", "");
   ("gl_start", ""); ("gl_end", ""); ("sfmqjc", ""); ("sfzc_14", "1"); ("sfqw_14", "0");
   ("sfqw_14_remark", ""); ("sfzgfx", "0"); ("sfzgfx_remark", ""); ("sfjc_14", "0");
   ("sfjc_14_remark", ""); ("sfjcqz_14", "0"); ("sfjcqz_14_remark", "");
   ("sfgtjz_14", "0"); ("sfgtjz_14_remark", ""); ("szsqqz", "0"); ("sfyqk", "");
   ("szdd", "1"); ("area", area info); ("city", city info);
   ("province", province info); ("address", address info);
   ("geo_api_info", regeocode); ("gwdz", ""); ("is_move", "0"); ("move_reason", "");
   ("move_remark", "")].

Definition checkin (env : Env) (info : UserInfo) : M unit :=
  let* cookies := login env (username info) (password info) in
  emit (GaodeLookup (location info)) ;;
  match gaode_regeo env (location info) with
  | GaodeNotJson text => throw (SyntaxError text)
  | GaodeNull =>
      (* [j["regeocode"]] on [null] *)
      throw (TypeError "Cannot read properties of null (reading 'regeocode')")
  | GaodeJson regeocode _ =>
      let form :=
        if in_campus info
        then checkin_form info regeocode ++ [("sfzs", "1"); ("bzxyy", "2"); ("bzxyy_other", "")]
        else checkin_form info regeocode ++ [("sfzs", "0"); ("bzxyy", "2"); ("bzxyy_other", "")] in
      emit (PortalSave cookies form) ;;
      match portal_save env cookies form with
      | NotJson _ =>
          send_message_to env (chat_id info) (Text "checkin failed: resp is not JSON") false
      | NoBuaaResp json => throw (Error ("Invalid CheckIn Resp " +:+ json))
      | BuaaResp _ m => send_message_to env (chat_id info) (Text m) false
      end
  end.

Definition info_of (env : Env) (id : number) : M UserInfo :=
  let key := user_key id in
  let* value := kv_get key in
  match value with
  | None => throw (UserNotFound id)
  | Some (Unparsable text) => throw (SyntaxError text)
  | Some json =>
      match UserInfo_decode json with
      | None => throw (InvalidUserInfo json)
      | Some info => ret info
      end
  end.

Definition check_with_user (env : Env) (id : number) : M unit :=
  let* info := info_of env id in
  send_message_to env (chat_id info) (Json info) true.

(** How one round of a loop body ends: at its end or at [continue], or at
    [return]. *)
Inductive flow :=
| Next
| Return.

(** The body of the [for] loop of [do_scheduled], for one key; [users] is
    threaded through. *)
Definition sweep_key (env : Env) (now_hh now_mm : Z) (name : string)
    (users : list UserInfo) : M (flow * list UserInfo) :=
  let id := id_of_key name in
  try_catch
    (let* info := info_of env id in
     let current_minutes := now_hh * 60 + now_mm in
     let expected_minutes := hh info * 60 + mm info in
     if Z.abs (expected_minutes - current_minutes) >? 10 then ret (Next, users)
     else
       let* info :=
         (if skip info >? 0 then
            let info := set_skip info (skip info - 1) in
            kv_put (user_key id) (InfoJson info) ;;
            send_message_to env (chat_id info) (Text "skip for today") false ;;
            check_with_user env (Int (chat_id info)) ;;
            ret info
          else ret info) in
       ret (Next, users ++ [info]))
    (fun e =>
       match e with
       | UserNotFound id =>
           emit (ConsoleError ("User not found for id " +:+ string_of_number id)) ;;
           ret (Return, users)
       | _ => throw e
       end).

Fixpoint sweep_keys (env : Env) (now_hh now_mm : Z) (keys : list string)
    (users : list UserInfo) : M (flow * list UserInfo) :=
  match keys with
  | [] => ret (Next, users)
  | name :: keys =>
      let* r := sweep_key env now_hh now_mm name users in
      match r with
      | (Return, users) => ret (Return, users)
      | (Next, users) => sweep_keys env now_hh now_mm keys users
      end
  end.

(** The [while (true)] loop over the pages. *)
Fixpoint sweep_pages (env : Env) (now_hh now_mm : Z) (value : listing)
    (users : list UserInfo) : M (flow * list UserInfo) :=
  match value with
  | LastPage keys => sweep_keys env now_hh now_mm keys users
  | MorePages keys cursor =>
      let* r := sweep_keys env now_hh now_mm keys users in
      match r with
      | (Return, users) => ret (Return, users)
      | (Next, users) => sweep_pages env now_hh now_mm cursor users
      end
  end.

(** [for (let user of users) await checkin(env, user)] *)
Fixpoint checkin_all (env : Env) (users : list UserInfo) : M unit :=
  match users with
  | [] => ret tt
  | user :: users => checkin env user ;; checkin_all env users
  end.

Definition do_scheduled (env : Env) : M unit :=
  let now_hh := (utc_hours env + 8) mod 24 in
  let now_mm := utc_minutes env in
  let* r := sweep_pages env now_hh now_mm (kv_list env) [] in
  match r with
  | (Return, _) => ret tt
  | (Next, users) =>
      emit (ConsoleLog ("schedule for "
                        +:+ string_of_number (Int (Z.of_nat (length users)))
                        +:+ " users")) ;;
      checkin_all env users
  end.

(** The record [/login] stores. *)
Definition login_record (chat : Z) (user pass : string) : UserInfo :=
  {| username := user;
     password := pass;
     chat_id := chat;
     hh := 17;
     mm := 30;
     skip := 0;
     province := "北京市";
     city := "北京市";
     area := "北京市 海淀区";
     address := "北京市海淀区花园路街道北京航空航天大学大运村学生公寓";
     in_campus := true;
     location := {| longitude := 116343699 # 1000000; latitude := 39977847 # 1000000 |} |}.

(** The inner [try] block of [fetch]: the chain of prefix tests on the text,
    or the location branch. *)
Definition dispatch (env : Env) (update : TelegramUpdate) : M unit :=
  let chat := message_chat_id update in
  match message_text update with
  | Some text =>
      if startsWith text "/start" then
        send_message_to env chat (Text help) false
      else if startsWith text "/login " then
        match split " " text with
        | [_; arg1; arg2] =>
            login env arg1 arg2 ;;
            let key := user_key (Int chat) in
            kv_put key (InfoJson (login_record chat arg1 arg2)) ;;
            check_with_user env (Int chat)
        | _ => throw (WrongCommandError text)
        end
      else if startsWith text "/checkin_at " then
        match split " " text with
        | [_; arg1] =>
            match split ":" arg1 with
            | [part0; part1] =>
                match checkin_hh_decode (to_number part0),
                      checkin_mm_decode (to_number part1) with
                | Some h, Some m =>
                    let* info := info_of env (Int chat) in
                    let info := set_hh info h in
                    let info := set_mm info m in
                    kv_put (user_key (Int chat)) (InfoJson info) ;;
                    check_with_user env (Int chat)
                | _, _ => throw (WrongCheckinTime arg1)
                end
            | _ => throw (WrongCheckinTime arg1)
            end
        | _ => throw (WrongCommandError text)
        end
      else if startsWith text "/info" then
        let now_hh := (utc_hours env + 8) mod 24 in
        let now_mm := utc_minutes env in
        send_message_to env chat
          (Text ("Current Time: " +:+ string_of_number (Int now_hh)
                 +:+ ":" +:+ string_of_number (Int now_mm))) false ;;
        check_with_user env (Int chat)
      else if startsWith text "/skip" then
        let* info := info_of env (Int chat) in
        let info := set_skip info (skip info + 1) in
        kv_put (user_key (Int chat)) (InfoJson info) ;;
        check_with_user env (Int chat)
      else if startsWith text "/no_skip" then
        let* info := info_of env (Int chat) in
        let info := if skip info >? 0 then set_skip info (skip info - 1) else info in
        kv_put (user_key (Int chat)) (InfoJson info) ;;
        check_with_user env (Int chat)
      else if startsWith text "/checkin" then
        let* info := info_of env (Int chat) in
        checkin env info
      else if startsWith text "/delete" then
        kv_delete (user_key (Int chat)) ;;
        check_with_user env (Int chat)
      else if startsWith text "/in_campus" then
        let* info := info_of env (Int chat) in
        let info := set_in_campus info true in
        kv_put (user_key (Int chat)) (InfoJson info) ;;
        check_with_user env (Int chat)
      else if startsWith text "/out_of_campus" then
        let* info := info_of env (Int chat) in
        let info := set_in_campus info false in
        kv_put (user_key (Int chat)) (InfoJson info) ;;
        check_with_user env (Int chat)
      else if startsWith text "/schedule" then
        do_scheduled env
      else throw (WrongCommandError text)
  | None =>
      match message_location update with
      | Some loc =>
          emit (GaodeLookup loc) ;;
          match gaode_regeo env loc with
          | GaodeNotJson text => throw (SyntaxError text)
          | GaodeNull => throw (InvalidGaodeResp "null")
          | GaodeJson json None => throw (InvalidGaodeResp json)
          | GaodeJson _ (Some resp) =>
              let province := ac_province resp in
              let city := match ac_city resp with
                          | CityString s => s
                          | CityArray _ => province
                          end in
              let district := ac_district resp in
              let area := city +:+ " " +:+ district in
              let address := formatted_address resp in
              let* info := info_of env (Int chat) in
              let info := set_city info city in
              let info := set_province info province in
              let info := set_area info area in
              let info := set_address info address in
              let info := set_location info loc in
              kv_put (user_key (Int chat)) (InfoJson info) ;;
              check_with_user env (Int chat)
          end
      | None => ret tt
      end
  end.

(** The webhook handler: the response, or the exception that leaves it. *)
Definition fetch (env : Env) (request : Request) : M Response :=
  try_catch
    (match request with
     | BodyNotJson text => throw (SyntaxError text)
     | BodyJson json None => throw (NotTelegramUpdateError json)
     | BodyJson _ (Some update) =>
         let chat := message_chat_id update in
         try_catch
           (dispatch env update ;; ret Success)
           (fun e =>
              match e with
              | WrongCommandError command =>
                  send_message_to env chat
                    (Text ("Invalid command: " +:+ command +:+ "
" +:+ help)) false ;;
                  ret EndWithError
              | LoginError message =>
                  send_message_to env chat (Text message) false ;;
                  ret EndWithError
              | WrongCheckinTime checkin_time =>
                  send_message_to env chat
                    (Text ("Wrong checkin time: " +:+ checkin_time
                           +:+ ", hours should between 16 and 19, minutes shoud be 0 or 30."))
                    false ;;
                  ret EndWithError
              | UserNotFound _ =>
                  send_message_to env chat
                    (Text ("User " +:+ string_of_number (Int chat) +:+ " does not exist"))
                    false ;;
                  ret EndWithError
              | _ => throw e
              end)
     end)
    (fun e =>
       match e with
       | NotTelegramUpdateError json =>
           emit (ConsoleError ("Request JSON is not a Telegram Update: 
" +:+ json)) ;;
           ret EndWithError
       | UserNotFound id =>
           emit (ConsoleError ("User not found with id " +:+ string_of_number id)) ;;
           ret EndWithError
       | InvalidUserInfo json =>
           emit (ConsoleErrorJson json) ;;
           ret EndWithError
       | SyntaxError message =>
           emit (ConsoleLog message) ;;
           ret EndWithError
       | _ => throw e
       end).

(** The timer handler. *)
Definition scheduled (env : Env) : M unit := do_scheduled env.

(** ** Worlds *)

(** The world after more events. *)
Definition logged (w : World) (events : list event) : World :=
  {| kv := kv w; trace := trace w ++ events |}.

(** The world after a write. *)
Definition written (w : World) (key : string) (value : kv_value) : World :=
  {| kv := <[key := value]> (kv w); trace := trace w |}.

(** The namespace holds, under the key of [id], a record that the reader
    accepts. *)
Definition holds_record (w : World) (id : number) (info : UserInfo) : Prop :=
  kv w !! user_key id = Some (InfoJson info)
  /\ UserInfo_decode (InfoJson info) = Some info.


(** The world after a delete. *)
Definition deleted (w : World) (key : string) : World :=
  {| kv := delete key (kv w); trace := trace w |}.

(** An update that carries a text. *)
Definition text_update (chat : Z) (text : string) : TelegramUpdate :=
  {| message_chat_id := chat; message_text := Some text; message_location := None |}.

(** An update that carries a location and no text. *)
Definition location_update (chat : Z) (loc : TelegramMessageLocation) : TelegramUpdate :=
  {| message_chat_id := chat; message_text := None; message_location := Some loc |}.

(** ** The namespace as a transition system *)

(** What a command, or the sweep, may turn a record into. *)
Inductive update : UserInfo -> UserInfo -> Prop :=
| up_same info : update info info
| up_time info h m :
    checkin_hh_is h = true -> checkin_mm_is m = true ->
    update info (set_mm (set_hh info h) m)
| up_skip_more info : update info (set_skip info (skip info + 1))
| up_skip_less info : 0 < skip info -> update info (set_skip info (skip info - 1))
| up_campus info b : update info (set_in_campus info b)
| up_location info c p a ad loc :
    update info
      (set_location (set_address (set_area (set_province (set_city info c) p) a) ad) loc).

(** One write of the worker: the record of a login under the key of its
    chat, an update of a record that the reader accepts under its own key,
    or a delete. *)
Inductive change (m : gmap string kv_value) : gmap string kv_value -> Prop :=
| ch_login chat user pass :
    change m (<[user_key (Int chat) := InfoJson (login_record chat user pass)]> m)
| ch_update id info info' :
    m !! user_key id = Some (InfoJson info) ->
    UserInfo_decode (InfoJson info) = Some info ->
    update info info' ->
    change m (<[user_key id := InfoJson info']> m)
| ch_delete chat : change m (delete (user_key (Int chat)) m).

(** A computation whose writes are all of these kinds. *)
Definition evolving {A} (c : M A) : Prop :=
  forall w r w', c w = (r, w') -> rtc change (kv w) (kv w').

(** A computation that does not write. *)
Definition reading {A} (c : M A) : Prop :=
  forall w r w', c w = (r, w') -> kv w' = kv w.

(** The worlds the worker gets to from the empty namespace, one webhook
    request or one timer tick at a time, whatever the outside answers. *)
Inductive reachable : World -> Prop :=
| reach_init : reachable {| kv := ∅; trace := [] |}
| reach_fetch env request w r w' :
    reachable w -> fetch env request w = (r, w') -> reachable w'
| reach_scheduled env w r w' :
    reachable w -> scheduled env w = (r, w') -> reachable w'.

(** ** Words of the specification *)

(** [c] occurs in [s]. *)
Fixpoint contains (c : ascii) (s : string) : bool :=
  match s with
  | EmptyString => false
  | String a rest => Ascii.eqb a c || contains c rest
  end.

(** [S] reads as HH:MM with the numbers [h] and [m]: one colon, no blank,
    and the two sides are the numbers' texts for the unary plus. *)
Definition parses_as_time (S : string) (h m : Z) : Prop :=
  exists sh sm, S = sh +:+ String ":" sm
    /\ contains ":" sh = false /\ contains ":" sm = false
    /\ contains " " S = false
    /\ to_number sh = Int h /\ to_number sm = Int m.



(** The keys of a listing, page after page. *)
Fixpoint listed (value : listing) : list string :=
  match value with
  | LastPage keys => keys
  | MorePages keys cursor => keys ++ listed cursor
  end.

(** The portal calls in a trace. *)
Definition is_portal_call (e : event) : bool :=
  match e with
  | PortalLogin _ _ | PortalSave _ _ => true
  | _ => false
  end.

(** Every record of the namespace satisfies [Q], with its key. *)
Definition every_record (Q : string -> UserInfo -> Prop) (m : gmap string kv_value) : Prop :=
  forall key raw, m !! key = Some (InfoJson raw) -> Q key raw.

(** The fields a command leaves alone. *)
Definition same_but_time (a b : UserInfo) : Prop :=
  username b = username a /\ password b = password a /\ chat_id b = chat_id a
  /\ skip b = skip a /\ area b = area a /\ city b = city a
  /\ province b = province a /\ address b = address a
  /\ location b = location a /\ in_campus b = in_campus a.

Definition same_but_skip (a b : UserInfo) : Prop :=
  username b = username a /\ password b = password a /\ chat_id b = chat_id a
  /\ hh b = hh a /\ mm b = mm a /\ area b = area a /\ city b = city a
  /\ province b = province a /\ address b = address a
  /\ location b = location a /\ in_campus b = in_campus a.

Definition same_but_in_campus (a b : UserInfo) : Prop :=
  username b = username a /\ password b = password a /\ chat_id b = chat_id a
  /\ hh b = hh a /\ mm b = mm a /\ skip b = skip a /\ area b = area a
  /\ city b = city a /\ province b = province a /\ address b = address a
  /\ location b = location a.

(** The request that carries the text [text] from the chat [chat]. *)
Definition text_request (json : string) (chat : Z) (text : string) : Request :=
  BodyJson json (Some (text_update chat text)).

(** The portal calls a world has seen. *)
Definition portal_calls (w : World) : list event :=
  List.filter is_portal_call (trace w).

(** A computation that makes no portal call. *)
Definition quiet {A} (c : M A) : Prop :=
  forall w r w', c w = (r, w') -> portal_calls w' = portal_calls w.

(** ** A small world for the examples *)

(** It is 17:30 in Beijing; the namespace lists the keys of the chats 42 and
    7; the portal accepts every login and every form; the geocoder knows a
    place whose city is an empty array. *)
Definition sample_place : GaodeResp :=
  {| formatted_address := "Shanghai Minhang Dongchuan Road 800";
     ac_province := "Shanghai";
     ac_city := CityArray [];
     ac_district := "Minhang" |}.

Definition sample_env : Env :=
  {| kv_list := MorePages ["user:42"] (LastPage ["user:7"]);
     portal_login := fun _ _ => {| login_body := BuaaResp 0 "ok"; set_cookie := Some "sid=1" |};
     gaode_regeo := fun _ => GaodeJson "{}" (Some sample_place);
     portal_save := fun _ _ => BuaaResp 0 "checked in";
     utc_hours := 9;
     utc_minutes := 30 |}.

(** The same, with a portal that refuses the login. *)
Definition refusing_env : Env :=
  {| kv_list := kv_list sample_env;
     portal_login := fun _ _ => {| login_body := BuaaResp 1 "bad password"; set_cookie := None |};
     gaode_regeo := gaode_regeo sample_env;
     portal_save := portal_save sample_env;
     utc_hours := 9;
     utc_minutes := 30 |}.

(** The record of chat 42 after [/login alice secret]. *)
Definition sample_info : UserInfo := login_record 42 "alice" "secret".

(** A namespace with that record alone. *)
Definition sample_world : World :=
  {| kv := {[ user_key (Int 42) := InfoJson sample_info ]}; trace := [] |}.

(** The same after one [/skip]. *)
Definition skipping_world : World :=
  {| kv := {[ user_key (Int 42) := InfoJson (set_skip sample_info 1) ]}; trace := [] |}.

(** [env] at another time of the clock. *)
Definition with_clock (env : Env) (hours minutes : Z) : Env :=
  {| kv_list := kv_list env;
     portal_login := portal_login env;
     gaode_regeo := gaode_regeo env;
     portal_save := portal_save env;
     utc_hours := hours;
     utc_minutes := minutes |}.

(** The listing of one key. *)
Definition one_key_env : Env :=
  {| kv_list := LastPage ["user:42"];
     portal_login := portal_login sample_env;
     gaode_regeo := gaode_regeo sample_env;
     portal_save := portal_save sample_env;
     utc_hours := 9;
     utc_minutes := 30 |}.

(** ** Words for the rest of the worker *)

(** [form.get(name)]: the first value under [name]. *)
Fixpoint form_get (name : string) (form : list (string * string)) : option string :=
  match form with
  | [] => None
  | (key, value) :: rest => if String.eqb key name then Some value else form_get name rest
  end.

(** The form [checkin] submits for a record. *)
Definition submitted_form (info : UserInfo) (regeocode : string) : list (string * string) :=
  checkin_form info regeocode
    ++ [("sfzs", if in_campus info then "1" else "0"); ("bzxyy", "2"); ("bzxyy_other", "")].

(** The test of the sweep's window, as a boolean. *)
Definition in_window (now_hh now_mm : Z) (info : UserInfo) : bool :=
  Z.abs (hh info * 60 + mm info - (now_hh * 60 + now_mm)) <=? 10.

(** What the skip block of the sweep makes of a record it has selected: the
    record with one skip less when one is pending. *)
Definition consume (info : UserInfo) : UserInfo :=
  if skip info >? 0 then set_skip info (skip info - 1) else info.

(** The world after the skip block for a selected record stored under the
    key of its own chat: the write and the two notices when a skip is
    pending, nothing otherwise. *)
Definition consumed (w : World) (info : UserInfo) : World :=
  if skip info >? 0 then
    logged (written w (user_key (Int (chat_id info))) (InfoJson (consume info)))
      [Send (chat_id info) (Text "skip for today") false;
       Send (chat_id info) (Json (consume info)) true]
  else w.

(** [env] with another listing. *)
Definition with_listing (env : Env) (value : listing) : Env :=
  {| kv_list := value;
     portal_login := portal_login env;
     gaode_regeo := gaode_regeo env;
     portal_save := portal_save env;
     utc_hours := utc_hours env;
     utc_minutes := utc_minutes env |}.

(** From [m] to [m'] nothing happened but skip counters going down, not
    below zero: under every key the value is the same, or a record with a
    lower counter and every other field the same. *)
Definition lowered (m m' : gmap string kv_value) : Prop :=
  forall key,
    m' !! key = m !! key
    \/ exists a b, m !! key = Some (InfoJson a) /\ m' !! key = Some (InfoJson b)
                   /\ same_but_skip a b /\ 0 <= skip b < skip a.

(** A computation that only lowers skip counters. *)
Definition lowering {A} (c : M A) : Prop :=
  forall w r w', c w = (r, w') -> lowered (kv w) (kv w').

(** Every value of the namespace is a record that the reader accepts, under
    the key made of its own [chat_id]. *)
Definition well_kept (m : gmap string kv_value) : Prop :=
  forall key value, m !! key = Some value ->
    exists info, value = InfoJson info
                 /\ UserInfo_decode (InfoJson info) = Some info
                 /\ key = user_key (Int (chat_id info)).

(** A computation that writes under the key [key] only. *)
Definition writes_only {A} (key : string) (c : M A) : Prop :=
  forall w r w', c w = (r, w') ->
    forall key', key' <> key -> kv w' !! key' = kv w !! key'.

(** A computation whose exceptions all satisfy [P]. *)
Definition throws_only {A} (P : exn -> Prop) (c : M A) : Prop :=
  forall w e w', c w = (Throw e, w') -> P e.

(** The exceptions that leave the sweep. *)
Definition sweep_exn (e : exn) : Prop :=
  match e with
  | SyntaxError _ | InvalidUserInfo _ | LoginError _ | Error _ | TypeError _ => True
  | _ => False
  end.

(** The text begins with one of the prefixes [fetch] tests. *)
Definition recognized (text : string) : bool :=
  existsb (startsWith text)
    ["/start"; "/login "; "/checkin_at "; "/info"; "/skip"; "/no_skip"; "/checkin";
     "/delete"; "/in_campus"; "/out_of_campus"; "/schedule"].

(** The notice for a chat without a record. *)
Definition no_record_notice (chat : Z) : event :=
  Send chat (Text ("User " +:+ string_of_number (Int chat) +:+ " does not exist")) false.

(** The notice for a text that is no command. *)
Definition invalid_command_notice (chat : Z) (text : string) : event :=
  Send chat (Text ("Invalid command: " +:+ text +:+ "
" +:+ help)) false.

(** [sample_env] with a geocoder whose answer is JSON of another shape. *)
Definition odd_geocoder_env : Env :=
  {| kv_list := kv_list sample_env;
     portal_login := portal_login sample_env;
     gaode_regeo := fun _ => GaodeJson "undefined" None;
     portal_save := portal_save sample_env;
     utc_hours := 9;
     utc_minutes := 30 |}.


(** The exceptions of the reader. *)
Definition reader_exn (e : exn) : Prop :=
  match e with
  | UserNotFound _ | SyntaxError _ | InvalidUserInfo _ => True
  | _ => False
  end.

(** [refusing_env] listing the key of chat 42 alone. *)
Definition refusing_one_key_env : Env := with_listing refusing_env (LastPage ["user:42"]).

(** The world after [/login alice secret] from chat 42 on the empty
    namespace. *)
Definition logged_in_world : World :=
  snd (fetch sample_env (text_request "{}" 42 "/login alice secret")
         {| kv := ∅; trace := [] |}).

(** * Properties *)

(** ** The runtime helpers on examples *)

Example split_login : split " " "/login alice secret" = ["/login"; "alice"; "secret"].
Proof. reflexivity. Qed.

Example split_trailing : split ":" "16:" = ["16"; ""].
Proof. reflexivity. Qed.

Example to_number_30 : to_number "30" = Int 30.
Proof. reflexivity. Qed.

Example id_of_user_key : id_of_key (user_key (Int (-1001234))) = Int (-1001234).
Proof. reflexivity. Qed.

(** ** Reading the namespace *)

Lemma logged_nil w : logged w [] = w.
Proof. destruct w; unfold logged; simpl. by rewrite app_nil_r. Qed.

Lemma logged_logged w es es' : logged (logged w es) es' = logged w (es ++ es').
Proof. unfold logged; simpl. by rewrite <- app_assoc. Qed.


Lemma logged_written_neq w key value e es : logged (written w key value) (e :: es) <> w.
Proof.
  destruct w as [m t]; unfold logged, written; simpl. intros H.
  injection H as _ H. apply (f_equal (@length event)) in H.
  rewrite length_app in H. simpl in H. lia.
Qed.

Lemma holds_record_logged w es id info :
  holds_record (logged w es) id info <-> holds_record w id info.
Proof. reflexivity. Qed.

Lemma holds_record_written w id info :
  UserInfo_decode (InfoJson info) = Some info ->
  holds_record (written w (user_key id) (InfoJson info)) id info.
Proof. intros H. split; [apply lookup_insert_eq | exact H]. Qed.

Lemma decode_set_skip info v :
  UserInfo_decode (InfoJson info) = Some info ->
  UserInfo_decode (InfoJson (set_skip info v)) = Some (set_skip info v).
Proof. simpl. by destruct (checkin_hh_is (hh info) && checkin_mm_is (mm info)). Qed.

Lemma decode_set_in_campus info v :
  UserInfo_decode (InfoJson info) = Some info ->
  UserInfo_decode (InfoJson (set_in_campus info v)) = Some (set_in_campus info v).
Proof. simpl. by destruct (checkin_hh_is (hh info) && checkin_mm_is (mm info)). Qed.

Lemma decode_Some json info :
  UserInfo_decode json = Some info ->
  json = InfoJson info /\ checkin_hh_is (hh info) = true /\ checkin_mm_is (mm info) = true.
Proof.
  destruct json as [t|t|raw]; simpl; try discriminate.
  destruct (checkin_hh_is (hh raw)) eqn:Hh, (checkin_mm_is (mm raw)) eqn:Hm;
    simpl; try discriminate.
  intros [= <-]. auto.
Qed.

Lemma info_of_holds env w id info :
  holds_record w id info -> info_of env id w = (Ok info, w).
Proof.
  intros [Hk Hd]. unfold info_of, bind, kv_get. rewrite Hk.
  change (match UserInfo_decode (InfoJson info) with
          | Some info0 => ret info0
          | None => throw (InvalidUserInfo (InfoJson info))
          end w = (Ok info, w)).
  by rewrite Hd.
Qed.

Lemma info_of_absent env w id :
  kv w !! user_key id = None -> info_of env id w = (Throw (UserNotFound id), w).
Proof. intros Hk. unfold info_of, bind, kv_get. by rewrite Hk. Qed.

(** [info_of] only reads: it leaves the world as it is, and what it returns
    is held by the namespace. *)
Lemma info_of_inv env w id r w' :
  info_of env id w = (r, w') ->
  w' = w /\
  match r with
  | Ok info => holds_record w id info
  | Throw (UserNotFound id') => id' = id /\ kv w !! user_key id = None
  | Throw (SyntaxError _) => exists t, kv w !! user_key id = Some (Unparsable t)
  | Throw (InvalidUserInfo json) =>
      kv w !! user_key id = Some json /\ UserInfo_decode json = None
  | Throw _ => False
  end.
Proof.
  unfold info_of, bind, kv_get.
  destruct (kv w !! user_key id) as [[t|t|raw]|] eqn:Hk; simpl.
  - intros [= <- <-]. eauto.
  - intros [= <- <-]. auto.
  - destruct (checkin_hh_is (hh raw) && checkin_mm_is (mm raw)) eqn:Hv;
      intros [= <- <-]; split; auto.
    + split; [done|]. simpl. by rewrite Hv.
    + split; [done|]. simpl. by rewrite Hv.
  - intros [= <- <-]. auto.
Qed.

Lemma check_with_user_holds env w id info :
  holds_record w id info ->
  check_with_user env id w = (Ok tt, logged w [Send (chat_id info) (Json info) true]).
Proof.
  intros H. unfold check_with_user, bind. by rewrite (info_of_holds _ _ _ _ H).
Qed.

Lemma check_with_user_absent env w id :
  kv w !! user_key id = None ->
  check_with_user env id w = (Throw (UserNotFound id), w).
Proof.
  intros H. unfold check_with_user, bind. by rewrite (info_of_absent _ _ _ H).
Qed.

(** [check_with_user] never shortens the trace and never writes. *)
Lemma check_with_user_inv env w id r w' :
  check_with_user env id w = (r, w') ->
  exists es, w' = logged w es.
Proof.
  unfold check_with_user, bind.
  destruct (info_of env id w) as [[info|e] w1] eqn:Hi;
    apply info_of_inv in Hi as [-> _].
  - intros [= <- <-]. by eexists.
  - intros [= <- <-]. exists []. by rewrite logged_nil.
Qed.

(** ** The sweep, one key at a time *)

Lemma gtb_false_iff (a b : Z) : (a >? b) = false <-> a <= b.
Proof. rewrite Z.gtb_ltb, Z.ltb_ge. reflexivity. Qed.

Lemma gtb_true_iff (a b : Z) : (a >? b) = true <-> b < a.
Proof. rewrite Z.gtb_ltb, Z.ltb_lt. reflexivity. Qed.

(** A record outside the window is passed over: nothing is written, sent or
    queued. *)
Lemma sweep_key_outside env now_hh now_mm name users w info :
  holds_record w (id_of_key name) info ->
  10 < Z.abs (hh info * 60 + mm info - (now_hh * 60 + now_mm)) ->
  sweep_key env now_hh now_mm name users w = (Ok (Next, users), w).
Proof.
  intros H Hout. unfold sweep_key, try_catch, bind.
  rewrite (info_of_holds _ _ _ _ H).
  apply gtb_true_iff in Hout. by rewrite Hout.
Qed.

(** A record inside the window with no skip pending is queued as it is. *)
Lemma sweep_key_queued env now_hh now_mm name users w info :
  holds_record w (id_of_key name) info ->
  Z.abs (hh info * 60 + mm info - (now_hh * 60 + now_mm)) <= 10 ->
  skip info <= 0 ->
  sweep_key env now_hh now_mm name users w = (Ok (Next, users ++ [info]), w).
Proof.
  intros H Hin Hs. unfold sweep_key, try_catch, bind.
  rewrite (info_of_holds _ _ _ _ H).
  apply gtb_false_iff in Hin. rewrite Hin.
  apply gtb_false_iff in Hs. by rewrite Hs.
Qed.

(** A record inside the window with a skip pending: the counter is
    decremented and written back, the skip notice is sent, and the round
    goes on with [check_with_user] on the record's own [chat_id]. *)
Lemma sweep_key_skip env now_hh now_mm name users w info :
  holds_record w (id_of_key name) info ->
  Z.abs (hh info * 60 + mm info - (now_hh * 60 + now_mm)) <= 10 ->
  0 < skip info ->
  let info' := set_skip info (skip info - 1) in
  let w1 := logged (written w (user_key (id_of_key name)) (InfoJson info'))
              [Send (chat_id info) (Text "skip for today") false] in
  sweep_key env now_hh now_mm name users w =
    match check_with_user env (Int (chat_id info)) w1 with
    | (Ok _, w2) => (Ok (Next, users ++ [info']), w2)
    | (Throw (UserNotFound id), w2) =>
        (Ok (Return, users),
         logged w2 [ConsoleError ("User not found for id " +:+ string_of_number id)])
    | (Throw e, w2) => (Throw e, w2)
    end.
Proof.
  intros H Hin Hs info' w1. unfold sweep_key, try_catch, bind.
  rewrite (info_of_holds _ _ _ _ H).
  apply gtb_false_iff in Hin. rewrite Hin.
  apply gtb_true_iff in Hs. rewrite Hs.
  unfold kv_put, send_message_to, emit; simpl.
  fold info'.
  change {| kv := <[user_key (id_of_key name):=InfoJson info']> (kv w);
            trace := trace w ++ [Send (chat_id info) (Text "skip for today") false] |}
    with w1.
  destruct (check_with_user env (Int (chat_id info)) w1) as [[[]|e] w2]; [done|].
  by destruct e.
Qed.

(** One round of the loop leaves the queue and the world untouched exactly
    when the record is more than 10 minutes away; inside the window a record
    with no skip pending is queued. *)
Lemma sweep_key_window env now_hh now_mm name users w info :
  holds_record w (id_of_key name) info ->
  let T := now_hh * 60 + now_mm in
  (Z.abs (hh info * 60 + mm info - T) <= 10
     <-> sweep_key env now_hh now_mm name users w <> (Ok (Next, users), w))
  /\ (skip info <= 0 ->
      sweep_key env now_hh now_mm name users w =
        (Ok (Next, if Z.abs (hh info * 60 + mm info - T) <=? 10
                   then users ++ [info] else users), w)).
Proof.
  intros H T. split; [split|].
  - intros Hin.
    destruct (Z_lt_le_dec 0 (skip info)) as [Hs|Hs].
    + rewrite (sweep_key_skip _ _ _ _ _ _ _ H Hin Hs).
      destruct (check_with_user _ _ _) as [[[]|e] w2] eqn:Hc;
        apply check_with_user_inv in Hc as [es ->]; rewrite ?logged_logged.
      * intros [= Hu Hw]. by apply logged_written_neq in Hw.
      * destruct e; discriminate.
    + rewrite (sweep_key_queued _ _ _ _ _ _ _ H Hin Hs).
      intros [= Hu]. apply (f_equal (@length UserInfo)) in Hu.
      rewrite length_app in Hu. simpl in Hu. lia.
  - intros Hne. destruct (Z_le_gt_dec (Z.abs (hh info * 60 + mm info - T)) 10) as [|Hout];
      [done|].
    exfalso. apply Hne. apply (sweep_key_outside _ _ _ _ _ _ _ H). subst T. lia.
  - intros Hs. destruct (Z.leb_spec (Z.abs (hh info * 60 + mm info - T)) 10) as [Hin|Hout].
    + by apply (sweep_key_queued _ _ _ _ _ _ _ H).
    + apply (sweep_key_outside _ _ _ _ _ _ _ H). subst T. lia.
Qed.

(** ** The commands *)

Lemma prefix_empty s : String.prefix "" s = true.
Proof. by destruct s. Qed.

(** C7. [/delete] removes the conversation's record whether or not there was
    one; the echo that follows finds nothing, [check_with_user] throws
    [UserNotFound], and the handler answers with the does-not-exist notice
    and the error response instead of letting the exception out. *)
Theorem delete_then_echo_fails env chat rest json w :
  let update := text_update chat ("/delete" +:+ rest) in
  let w' := deleted w (user_key (Int chat)) in
  kv w' !! user_key (Int chat) = None
  /\ deleted w' (user_key (Int chat)) = w'
  /\ dispatch env update w = (Throw (UserNotFound (Int chat)), w')
  /\ fetch env (BodyJson json (Some update)) w =
       (Ok EndWithError,
        logged w' [Send chat (Text ("User " +:+ string_of_number (Int chat)
                                    +:+ " does not exist")) false]).
Proof.
  intros update w'.
  assert (Hnone : kv w' !! user_key (Int chat) = None) by apply lookup_delete_eq.
  assert (Hd : dispatch env update w = (Throw (UserNotFound (Int chat)), w')).
  { unfold dispatch, update, text_update, startsWith; simpl.
    rewrite prefix_empty.
    unfold bind at 1. unfold kv_delete. fold w'.
    by apply check_with_user_absent. }
  split; [done|]. split.
  { unfold w', deleted; simpl. f_equal. apply delete_id.
    apply lookup_delete_eq. }
  split; [done|].
  unfold fetch, try_catch. unfold bind at 1.
  change (message_chat_id update) with chat.
  rewrite Hd. reflexivity.
Qed.

(** ** Keys *)

Lemma to_int_printable z : Z.to_int z <> Decimal.Pos Decimal.Nil /\ Z.to_int z <> Decimal.Neg Decimal.Nil.
Proof.
  destruct z as [|p|p]; simpl; split; try discriminate;
    intros [= H]; by apply DecimalPos.Unsigned.to_uint_nonnil in H.
Qed.

Lemma to_number_string_of_number id : to_number (string_of_number id) = id.
Proof.
  destruct id as [z|]; [|reflexivity].
  unfold to_number, string_of_number.
  destruct (to_int_printable z) as [Hp Hn].
  pose proof (NilZero.isi _ Hp Hn) as Hisi.
  destruct (NilZero.string_of_int (Z.to_int z)) eqn:Hs.
  - simpl in Hisi. discriminate.
  - rewrite Hisi. by rewrite DecimalZ.of_to.
Qed.

Lemma string_of_number_inj id id' :
  string_of_number id = string_of_number id' -> id = id'.
Proof.
  intros H. rewrite <- (to_number_string_of_number id), H.
  apply to_number_string_of_number.
Qed.

Lemma user_key_inj id id' : user_key id = user_key id' -> id = id'.
Proof.
  unfold user_key. intros H. apply string_of_number_inj.
  simpl in H. by injection H.
Qed.

(** ** Every write of the worker is a [change] *)

Section Evolving.
Context {A B : Type}.

Lemma reading_evolving (c : M A) : reading c -> evolving c.
Proof. intros H w r w' Hc. by rewrite (H _ _ _ Hc). Qed.

Lemma reading_ret (a : A) : reading (ret a).
Proof. by intros w r w' [= <- <-]. Qed.

Lemma reading_throw e : reading (@throw A e).
Proof. by intros w r w' [= <- <-]. Qed.

Lemma reading_bind (c : M A) (k : A -> M B) :
  reading c -> (forall a, reading (k a)) -> reading (bind c k).
Proof.
  intros Hc Hk w r w'. unfold bind.
  destruct (c w) as [[a|e] w1] eqn:E; specialize (Hc _ _ _ E).
  - intros E'. rewrite (Hk _ _ _ _ E'). exact Hc.
  - by intros [= <- <-].
Qed.

Lemma evolving_ret (a : A) : evolving (ret a).
Proof. apply reading_evolving, reading_ret. Qed.

Lemma evolving_throw e : evolving (@throw A e).
Proof. apply reading_evolving, reading_throw. Qed.

Lemma evolving_bind (c : M A) (k : A -> M B) :
  evolving c -> (forall a, evolving (k a)) -> evolving (bind c k).
Proof.
  intros Hc Hk w r w'. unfold bind.
  destruct (c w) as [[a|e] w1] eqn:E; specialize (Hc _ _ _ E).
  - intros E'. etrans; [exact Hc | exact (Hk _ _ _ _ E')].
  - by intros [= <- <-].
Qed.

Lemma evolving_try_catch (c : M A) (handler : exn -> M A) :
  evolving c -> (forall e, evolving (handler e)) -> evolving (try_catch c handler).
Proof.
  intros Hc Hh w r w'. unfold try_catch.
  destruct (c w) as [[a|e] w1] eqn:E; specialize (Hc _ _ _ E).
  - by intros [= <- <-].
  - intros E'. etrans; [exact Hc | exact (Hh _ _ _ _ E')].
Qed.
End Evolving.

Lemma reading_emit e : reading (emit e).
Proof. by intros w r w' [= <- <-]. Qed.

Lemma reading_kv_get key : reading (kv_get key).
Proof. by intros w r w' [= <- <-]. Qed.

Lemma reading_send env chat msg markdown : reading (send_message_to env chat msg markdown).
Proof. apply reading_emit. Qed.

Lemma reading_info_of env id : reading (info_of env id).
Proof. intros w r w' H. by apply info_of_inv in H as [-> _]. Qed.

Lemma reading_check_with_user env id : reading (check_with_user env id).
Proof. intros w r w' H. by apply check_with_user_inv in H as [es ->]. Qed.

Lemma reading_login env user pass : reading (login env user pass).
Proof.
  unfold login. apply reading_bind; [apply reading_emit|]. intros _.
  destruct (login_body _); try apply reading_throw.
  destruct (_ =? _); [apply reading_throw|].
  destruct (set_cookie _); [apply reading_ret | apply reading_throw].
Qed.

Lemma reading_checkin env info : reading (checkin env info).
Proof.
  unfold checkin. apply reading_bind; [apply reading_login|]. intros cookies.
  apply reading_bind; [apply reading_emit|]. intros _.
  destruct (gaode_regeo _ _); [apply reading_throw | apply reading_throw |].
  apply reading_bind; [apply reading_emit|]. intros _.
  destruct (portal_save _ _ _); first [apply reading_send | apply reading_throw].
Qed.

Lemma reading_checkin_all env users : reading (checkin_all env users).
Proof.
  induction users as [|user users IH]; simpl; [apply reading_ret|].
  apply reading_bind; [apply reading_checkin | by intros _].
Qed.

Lemma evolving_kv_delete chat : evolving (kv_delete (user_key (Int chat))).
Proof. intros w r w' [= <- <-]; simpl. apply rtc_once, ch_delete. Qed.

Lemma evolving_login_put chat user pass :
  evolving (kv_put (user_key (Int chat)) (InfoJson (login_record chat user pass))).
Proof. intros w r w' [= <- <-]; simpl. apply rtc_once, ch_login. Qed.

(** Read a record, write an update of it back under the same key, go on. *)
Lemma evolving_update {A} (env : Env) (id : number) (f : UserInfo -> UserInfo) (rest : M A) :
  (forall info, update info (f info)) ->
  evolving rest ->
  evolving (let* info := info_of env id in
            kv_put (user_key id) (InfoJson (f info)) ;; rest).
Proof.
  intros Hf Hrest w r w'. unfold bind at 1.
  destruct (info_of env id w) as [[info|e] w1] eqn:Hi;
    apply info_of_inv in Hi as [-> Hi].
  - unfold bind, kv_put. intros Hr. apply Hrest in Hr; simpl in Hr.
    destruct Hi as [Hk Hd].
    etrans; [apply rtc_once, (ch_update _ id info (f info) Hk Hd (Hf info)) | exact Hr].
  - by intros [= <- <-].
Qed.

Create HintDb evolve.

#[local] Hint Resolve reading_evolving reading_ret reading_throw reading_emit
  reading_send reading_info_of reading_check_with_user reading_login
  reading_checkin reading_checkin_all evolving_ret evolving_throw
  evolving_kv_delete evolving_login_put : evolve.

Ltac evolve :=
  cbv zeta;
  repeat first
    [ solve [auto with evolve]
    | apply evolving_update; [intros ? |]
    | apply evolving_bind; [| intros ?]
    | apply evolving_try_catch; [| intros ?]
    | match goal with
      | |- evolving (if ?b then _ else _) => destruct b eqn:?
      | |- evolving (match ?x with _ => _ end) => destruct x eqn:?
      end ].

Lemma evolving_sweep_key env now_hh now_mm name users :
  evolving (sweep_key env now_hh now_mm name users).
Proof.
  intros w r w' H.
  destruct (info_of env (id_of_key name) w) as [[info|e] w1] eqn:Hi.
  - apply info_of_inv in Hi as [-> Hi].
    destruct (Z_le_gt_dec (Z.abs (hh info * 60 + mm info - (now_hh * 60 + now_mm))) 10)
      as [Hin|Hout].
    + destruct (Z_lt_le_dec 0 (skip info)) as [Hs|Hs].
      * rewrite (sweep_key_skip _ _ _ _ _ _ _ Hi Hin Hs) in H.
        destruct Hi as [Hk Hd].
        destruct (check_with_user _ _ _) as [[[]|e] w2] eqn:Hc;
          apply reading_check_with_user in Hc; simpl in Hc.
        2: destruct e.
        all: injection H as <- <-; simpl; rewrite Hc.
        all: apply rtc_once, (ch_update _ _ info _ Hk Hd), up_skip_less, Hs.
      * rewrite (sweep_key_queued _ _ _ _ _ _ _ Hi Hin Hs) in H.
        by injection H as <- <-.
    + rewrite (sweep_key_outside _ _ _ _ _ _ _ Hi) in H by lia.
      by injection H as <- <-.
  - pose proof (reading_info_of _ _ _ _ _ Hi) as Hk.
    unfold sweep_key, try_catch, bind in H. rewrite Hi in H.
    destruct e; injection H as <- <-; simpl; by rewrite Hk.
Qed.

Lemma evolving_sweep_keys env now_hh now_mm keys users :
  evolving (sweep_keys env now_hh now_mm keys users).
Proof.
  revert users. induction keys as [|name keys IH]; intros users; simpl.
  - apply evolving_ret.
  - apply evolving_bind; [apply evolving_sweep_key|].
    intros [[] users']; [apply IH | apply evolving_ret].
Qed.

Lemma evolving_sweep_pages env now_hh now_mm value users :
  evolving (sweep_pages env now_hh now_mm value users).
Proof.
  revert users. induction value as [keys|keys cursor IH]; intros users; simpl.
  - apply evolving_sweep_keys.
  - apply evolving_bind; [apply evolving_sweep_keys|].
    intros [[] users']; [apply IH | apply evolving_ret].
Qed.

Lemma evolving_do_scheduled env : evolving (do_scheduled env).
Proof.
  unfold do_scheduled. cbv zeta.
  apply evolving_bind; [apply evolving_sweep_pages|].
  intros [[] users]; evolve.
Qed.

#[local] Hint Resolve evolving_do_scheduled : evolve.

Lemma checkin_hh_decode_Some u h :
  checkin_hh_decode u = Some h -> u = Int h /\ checkin_hh_is h = true.
Proof.
  destruct u as [z|]; simpl; [|discriminate].
  destruct (checkin_hh_is z) eqn:Hz; [|discriminate]. by intros [= <-].
Qed.

Lemma checkin_mm_decode_Some u m :
  checkin_mm_decode u = Some m -> u = Int m /\ checkin_mm_is m = true.
Proof.
  destruct u as [z|]; simpl; [|discriminate].
  destruct (checkin_mm_is z) eqn:Hz; [|discriminate]. by intros [= <-].
Qed.

Lemma evolving_dispatch env update : evolving (dispatch env update).
Proof.
  unfold dispatch. cbv zeta.
  destruct (message_text update) as [text|].
  - repeat match goal with
           | |- evolving (if ?b then _ else _) => destruct b
           end.
    all: evolve.
    all: match goal with
         | |- update _ (set_mm (set_hh _ _) _) =>
             apply up_time;
             [eapply checkin_hh_decode_Some | eapply checkin_mm_decode_Some]; eassumption
         | |- update _ (set_skip _ (_ + 1)) => apply up_skip_more
         | |- update ?i (if skip ?i >? 0 then _ else _) =>
             destruct (skip i >? 0) eqn:Hs;
             [apply up_skip_less, gtb_true_iff, Hs | apply up_same]
         | |- update _ (set_in_campus _ _) => apply up_campus
         end.
  - evolve. apply up_location.
Qed.

Lemma evolving_fetch env request : evolving (fetch env request).
Proof.
  unfold fetch.
  apply evolving_try_catch; [| intros e; evolve].
  destruct request as [text|json [update|]]; [evolve| |evolve].
  apply evolving_try_catch; [| intros e; evolve].
  apply evolving_bind; [apply evolving_dispatch | intros _; apply evolving_ret].
Qed.

(** From the empty namespace the worker only makes [change]s. *)
Lemma reachable_evolves w : reachable w -> rtc change ∅ (kv w).
Proof.
  induction 1 as [|env request w r w' _ IH Hf|env w r w' _ IH Hs]; simpl.
  - done.
  - etrans; [exact IH | exact (evolving_fetch _ _ _ _ _ Hf)].
  - etrans; [exact IH | exact (evolving_do_scheduled _ _ _ _ Hs)].
Qed.

(** ** Splitting *)


Lemma split_without sep s : contains sep s = false -> split sep s = [s].
Proof.
  induction s as [|c rest IH]; simpl; [done|].
  destruct (Ascii.eqb c sep); simpl; [done|].
  intros H. by rewrite (IH H).
Qed.

Lemma split_at_first sep a b :
  contains sep a = false -> split sep (a +:+ String sep b) = a :: split sep b.
Proof.
  induction a as [|c rest IH]; simpl.
  - intros _. by rewrite Ascii.eqb_refl.
  - destruct (Ascii.eqb c sep); simpl; [done|].
    intros H. by rewrite (IH H).
Qed.



Lemma digits_without_colon d : contains ":" (NilEmpty.string_of_uint d) = false.
Proof. induction d; simpl; auto. Qed.

Lemma string_of_number_without_colon id : contains ":" (string_of_number id) = false.
Proof.
  destruct id as [z|]; [|reflexivity].
  unfold string_of_number. destruct (Z.to_int z) as [d|d]; simpl.
  - destruct d; try reflexivity; apply digits_without_colon.
  - destruct d; try reflexivity; apply digits_without_colon.
Qed.

(** The sweep reads back from a key the id the key was made of. *)
Lemma id_of_key_user_key id : id_of_key (user_key id) = id.
Proof.
  unfold id_of_key, user_key.
  change ("user:" +:+ string_of_number id) with ("user" +:+ String ":" (string_of_number id)).
  rewrite split_at_first by reflexivity.
  rewrite split_without by apply string_of_number_without_colon.
  simpl. apply to_number_string_of_number.
Qed.

(** ** Invariants of the namespace *)

Section Invariant.
Variable Q : string -> UserInfo -> Prop.
Hypothesis Q_login : forall chat user pass,
  Q (user_key (Int chat)) (login_record chat user pass).
Hypothesis Q_update : forall key info info',
  Q key info -> UserInfo_decode (InfoJson info) = Some info ->
  update info info' -> Q key info'.

Lemma every_record_change m m' :
  change m m' -> every_record Q m -> every_record Q m'.
Proof.
  intros [chat user pass|id info info' Hk Hd Hu|chat] Hm key raw.
  - rewrite lookup_insert. case_decide as E.
    + intros [= <-]. rewrite <- E. apply Q_login.
    + apply Hm.
  - rewrite lookup_insert. case_decide as E.
    + intros [= <-]. rewrite <- E. apply (Q_update _ info); [by apply Hm | done | done].
    + apply Hm.
  - rewrite lookup_delete. case_decide; [done | apply Hm].
Qed.

Lemma every_record_evolves m m' :
  rtc change m m' -> every_record Q m -> every_record Q m'.
Proof. induction 1 as [|m1 m2 m3 H12 _ IH]; [done|]. intros H. by eapply IH, every_record_change. Qed.

Lemma reachable_every_record w : reachable w -> every_record Q (kv w).
Proof.
  intros H. apply (every_record_evolves ∅); [by apply reachable_evolves|].
  intros key raw. by rewrite lookup_empty.
Qed.
End Invariant.

Lemma update_chat_id info info' : update info info' -> chat_id info' = chat_id info.
Proof. by destruct 1. Qed.

Lemma update_decode info info' :
  UserInfo_decode (InfoJson info) = Some info -> update info info' ->
  UserInfo_decode (InfoJson info') = Some info'.
Proof.
  intros Hd Hu. apply decode_Some in Hd as (_ & Hh & Hm).
  destruct Hu; simpl; rewrite ?Hh, ?Hm; simpl; try done.
  by rewrite H, H0.
Qed.

(** C10. In every world the worker reaches from the empty namespace, a stored
    record sits under the key made of its own [chat_id]: the id read back
    from the key is the record's [chat_id]. [/login] writes the chat's id
    into the record it stores under the chat's key, and no update changes
    [chat_id]. So when the sweep has consumed a skip, [check_with_user] on
    the record's [chat_id] reads the record just written and sends it. *)
Theorem chat_id_matches_key w :
  reachable w ->
  (forall key raw, kv w !! key = Some (InfoJson raw) ->
     key = user_key (Int (chat_id raw)) /\ id_of_key key = Int (chat_id raw))
  /\ (forall chat user pass, chat_id (login_record chat user pass) = chat)
  /\ (forall info info', update info info' -> chat_id info' = chat_id info)
  /\ (forall env now_hh now_mm name users info,
        holds_record w (id_of_key name) info ->
        Z.abs (hh info * 60 + mm info - (now_hh * 60 + now_mm)) <= 10 ->
        0 < skip info ->
        let info' := set_skip info (skip info - 1) in
        sweep_key env now_hh now_mm name users w =
          (Ok (Next, users ++ [info']),
           logged (written w (user_key (id_of_key name)) (InfoJson info'))
             [Send (chat_id info) (Text "skip for today") false;
              Send (chat_id info) (Json info') true])).
Proof.
  intros Hw.
  assert (Hkeys : every_record (fun key raw => key = user_key (Int (chat_id raw))) (kv w)).
  { apply reachable_every_record; [done | | done].
    intros key info info' -> _ Hu. by rewrite (update_chat_id _ _ Hu). }
  split; [|split; [done|split; [apply update_chat_id|]]].
  - intros key raw Hk. specialize (Hkeys _ _ Hk) as ->.
    split; [done | apply id_of_key_user_key].
  - intros env now_hh now_mm name users info H Hin Hs info'.
    rewrite (sweep_key_skip _ _ _ _ _ _ _ H Hin Hs). fold info'.
    destruct H as [Hk Hd].
    pose proof (Hkeys _ _ Hk) as Hid. apply user_key_inj in Hid.
    rewrite Hid.
    rewrite (check_with_user_holds _ _ _ info').
    + by rewrite logged_logged.
    + apply holds_record_logged. change (chat_id info) with (chat_id info').
      apply holds_record_written. by apply decode_set_skip.
Qed.

(** ** Dispatching *)

Lemma startsWith_app p rest : startsWith (p +:+ rest) p = true.
Proof.
  unfold startsWith. induction p as [|c p IH]; simpl; [apply prefix_empty|].
  by destruct (ascii_dec c c).
Qed.

(** Settle the prefix tests of [dispatch] on a text that begins with a
    literal. *)
Ltac prefix_tests :=
  unfold dispatch, text_update;
  cbn [message_text message_chat_id message_location];
  repeat (match goal with
          | |- context [startsWith ?t ?p] =>
              first [ rewrite (startsWith_app p) | change (startsWith t p) with false ]
          end; cbv iota).

(** What [fetch] makes of the outcome of [dispatch]. *)
Lemma fetch_of_dispatch env json update w :
  fetch env (BodyJson json (Some update)) w =
    let chat := message_chat_id update in
    match dispatch env update w with
    | (Ok _, w') => (Ok Success, w')
    | (Throw (WrongCommandError command), w') =>
        (Ok EndWithError,
         logged w' [Send chat (Text ("Invalid command: " +:+ command +:+ "
" +:+ help)) false])
    | (Throw (LoginError message), w') =>
        (Ok EndWithError, logged w' [Send chat (Text message) false])
    | (Throw (WrongCheckinTime checkin_time), w') =>
        (Ok EndWithError,
         logged w' [Send chat
                      (Text ("Wrong checkin time: " +:+ checkin_time
                             +:+ ", hours should between 16 and 19, minutes shoud be 0 or 30."))
                      false])
    | (Throw (UserNotFound _), w') =>
        (Ok EndWithError,
         logged w' [Send chat (Text ("User " +:+ string_of_number (Int chat)
                                     +:+ " does not exist")) false])
    | (Throw (InvalidUserInfo j), w') => (Ok EndWithError, logged w' [ConsoleErrorJson j])
    | (Throw (SyntaxError message), w') => (Ok EndWithError, logged w' [ConsoleLog message])
    | (Throw (NotTelegramUpdateError j), w') =>
        (Ok EndWithError,
         logged w' [ConsoleError ("Request JSON is not a Telegram Update: 
" +:+ j)])
    | (Throw e, w') => (Throw e, w')
    end.
Proof.
  unfold fetch, try_catch. unfold bind at 1.
  destruct (dispatch env update w) as [[[]|e] w']; [done|].
  by destruct e.
Qed.

(** Write a record that the reader accepts, then echo it. *)
Lemma put_then_echo env w id info :
  UserInfo_decode (InfoJson info) = Some info ->
  (kv_put (user_key id) (InfoJson info) ;; check_with_user env id) w =
    (Ok tt, logged (written w (user_key id) (InfoJson info))
              [Send (chat_id info) (Json info) true]).
Proof.
  intros Hd. unfold bind, kv_put.
  apply check_with_user_holds. by apply holds_record_written.
Qed.

(** A command that reads the chat's record, writes [f] of it back and
    echoes it. *)
Lemma update_then_echo env w chat info (f : UserInfo -> UserInfo) :
  holds_record w (Int chat) info ->
  update info (f info) ->
  (let* info := info_of env (Int chat) in
   kv_put (user_key (Int chat)) (InfoJson (f info)) ;; check_with_user env (Int chat)) w =
    (Ok tt, logged (written w (user_key (Int chat)) (InfoJson (f info)))
              [Send (chat_id info) (Json (f info)) true]).
Proof.
  intros H Hu. unfold bind at 1. rewrite (info_of_holds _ _ _ _ H).
  rewrite put_then_echo by (eapply update_decode; [apply H | done]).
  by rewrite (update_chat_id _ _ Hu).
Qed.

Lemma dispatch_skip env chat rest w info :
  holds_record w (Int chat) info ->
  let info' := set_skip info (skip info + 1) in
  dispatch env (text_update chat ("/skip" +:+ rest)) w =
    (Ok tt, logged (written w (user_key (Int chat)) (InfoJson info'))
              [Send (chat_id info) (Json info') true]).
Proof.
  intros H info'. prefix_tests.
  apply (update_then_echo env w chat info (fun i => set_skip i (skip i + 1)) H).
  apply up_skip_more.
Qed.

Lemma dispatch_no_skip env chat rest w info :
  holds_record w (Int chat) info ->
  let info' := if skip info >? 0 then set_skip info (skip info - 1) else info in
  dispatch env (text_update chat ("/no_skip" +:+ rest)) w =
    (Ok tt, logged (written w (user_key (Int chat)) (InfoJson info'))
              [Send (chat_id info) (Json info') true]).
Proof.
  intros H info'. prefix_tests.
  apply (update_then_echo env w chat info
           (fun i => if skip i >? 0 then set_skip i (skip i - 1) else i) H).
  destruct (skip info >? 0) eqn:Hs; [apply up_skip_less, gtb_true_iff, Hs | apply up_same].
Qed.

Lemma dispatch_in_campus env chat rest w info :
  holds_record w (Int chat) info ->
  let info' := set_in_campus info true in
  dispatch env (text_update chat ("/in_campus" +:+ rest)) w =
    (Ok tt, logged (written w (user_key (Int chat)) (InfoJson info'))
              [Send (chat_id info) (Json info') true]).
Proof.
  intros H info'. prefix_tests.
  apply (update_then_echo env w chat info (fun i => set_in_campus i true) H).
  apply up_campus.
Qed.

Lemma dispatch_out_of_campus env chat rest w info :
  holds_record w (Int chat) info ->
  let info' := set_in_campus info false in
  dispatch env (text_update chat ("/out_of_campus" +:+ rest)) w =
    (Ok tt, logged (written w (user_key (Int chat)) (InfoJson info'))
              [Send (chat_id info) (Json info') true]).
Proof.
  intros H info'. prefix_tests.
  apply (update_then_echo env w chat info (fun i => set_in_campus i false) H).
  apply up_campus.
Qed.

Lemma split_checkin_at S :
  split " " ("/checkin_at " +:+ S) = "/checkin_at" :: split " " S.
Proof.
  change ("/checkin_at " +:+ S) with ("/checkin_at" +:+ String " " S).
  by rewrite split_at_first.
Qed.

Lemma dispatch_checkin_at env chat S h m w info :
  holds_record w (Int chat) info ->
  parses_as_time S h m -> checkin_hh_is h = true -> checkin_mm_is m = true ->
  let info' := set_mm (set_hh info h) m in
  dispatch env (text_update chat ("/checkin_at " +:+ S)) w =
    (Ok tt, logged (written w (user_key (Int chat)) (InfoJson info'))
              [Send (chat_id info) (Json info') true]).
Proof.
  intros H (sh & sm & -> & Hsh & Hsm & Hblank & Hh & Hm) Vh Vm info'.
  prefix_tests. rewrite split_checkin_at.
  rewrite (split_without " ") by done.
  rewrite split_at_first, (split_without ":" sm) by done.
  rewrite Hh, Hm. simpl. rewrite Vh, Vm.
  apply (update_then_echo env w chat info (fun i => set_mm (set_hh i h) m) H).
  by apply up_time.
Qed.







Lemma update_skip_nonneg info info' :
  0 <= skip info -> update info info' -> 0 <= skip info'.
Proof. intros Hs Hu. destruct Hu; simpl; lia. Qed.

(** C4. The skip counter of a stored record is never negative in a world the
    worker reaches. [/skip] writes the record back with a counter that is
    one higher and nothing else changed; [/no_skip] writes it back with a
    counter that is one lower when it was positive and with the record as
    it was otherwise, so never with a negative counter of its making;
    [/skip] and then [/no_skip] leave the namespace with the record it had,
    both having written. *)
Theorem skip_counter_never_negative :
  (forall w, reachable w -> every_record (fun _ raw => 0 <= skip raw) (kv w))
  /\ (forall env chat rest json w info,
        holds_record w (Int chat) info ->
        exists info',
          fetch env (text_request json chat ("/skip" +:+ rest)) w =
            (Ok Success, logged (written w (user_key (Int chat)) (InfoJson info'))
                           [Send (chat_id info) (Json info') true])
          /\ skip info' = skip info + 1
          /\ same_but_skip info info')
  /\ (forall env chat rest json w info,
        holds_record w (Int chat) info ->
        exists info',
          fetch env (text_request json chat ("/no_skip" +:+ rest)) w =
            (Ok Success, logged (written w (user_key (Int chat)) (InfoJson info'))
                           [Send (chat_id info) (Json info') true])
          /\ (0 < skip info -> skip info' = skip info - 1)
          /\ (skip info <= 0 -> info' = info)
          /\ (0 <= skip info -> 0 <= skip info')
          /\ same_but_skip info info')
  /\ (forall env env' chat rest rest' json json' w info,
        holds_record w (Int chat) info ->
        0 <= skip info ->
        exists w1 w2 info1,
          fetch env (text_request json chat ("/skip" +:+ rest)) w = (Ok Success, w1)
          /\ kv w1 = <[user_key (Int chat) := InfoJson info1]> (kv w)
          /\ skip info1 = skip info + 1
          /\ fetch env' (text_request json' chat ("/no_skip" +:+ rest')) w1 = (Ok Success, w2)
          /\ kv w2 = <[user_key (Int chat) := InfoJson info]> (kv w1)
          /\ kv w2 = kv w).
Proof.
  split; [|split; [|split]].
  - intros w Hw. apply reachable_every_record; [| |done].
    + intros chat user pass. simpl. lia.
    + intros key info info' Hs _ Hu. by apply (update_skip_nonneg info).
  - intros env chat rest json w info H. eexists.
    unfold text_request. rewrite fetch_of_dispatch.
    rewrite (dispatch_skip _ _ _ _ _ H). by repeat split.
  - intros env chat rest json w info H. eexists.
    unfold text_request. rewrite fetch_of_dispatch.
    rewrite (dispatch_no_skip _ _ _ _ _ H).
    split; [done|].
    destruct (skip info >? 0) eqn:Hs.
    + apply gtb_true_iff in Hs. simpl. repeat split; lia.
    + apply gtb_false_iff in Hs. repeat split; try done; lia.
  - intros env env' chat rest rest' json json' w info H Hs.
    set (info1 := set_skip info (skip info + 1)).
    set (w1 := logged (written w (user_key (Int chat)) (InfoJson info1))
                 [Send (chat_id info) (Json info1) true]).
    assert (H1 : holds_record w1 (Int chat) info1).
    { apply holds_record_logged, holds_record_written, decode_set_skip, H. }
    assert (Hback : (if skip info1 >? 0 then set_skip info1 (skip info1 - 1) else info1) = info).
    { assert ((skip info1 >? 0) = true) as -> by (apply gtb_true_iff; simpl; lia).
      unfold info1; destruct info; unfold set_skip; simpl. f_equal. lia. }
    exists w1. eexists. exists info1. split; [|split; [done|split; [done|split; [|split]]]].
    + unfold text_request. rewrite fetch_of_dispatch.
      by rewrite (dispatch_skip _ _ _ _ _ H).
    + unfold text_request. rewrite fetch_of_dispatch.
      rewrite (dispatch_no_skip _ _ _ _ _ H1). rewrite Hback. done.
    + done.
    + simpl. rewrite insert_insert_eq. apply insert_id, H.
Qed.

(** C9. The commands that change one thing of an existing record write the
    whole record back under the chat's key with every other field as it was
    stored: [/checkin_at] changes [hh] and [mm] only, [/skip] and [/no_skip]
    change [skip] only, [/in_campus] and [/out_of_campus] change [in_campus]
    only. *)
Theorem mutations_keep_other_fields env chat json w info :
  holds_record w (Int chat) info ->
  let written_back text info' :=
    fetch env (text_request json chat text) w =
      (Ok Success, logged (written w (user_key (Int chat)) (InfoJson info'))
                     [Send (chat_id info) (Json info') true]) in
  (forall S h m,
     parses_as_time S h m -> checkin_hh_is h = true -> checkin_mm_is m = true ->
     exists info', written_back ("/checkin_at " +:+ S) info' /\ same_but_time info info')
  /\ (forall rest, exists info',
        written_back ("/skip" +:+ rest) info' /\ same_but_skip info info')
  /\ (forall rest, exists info',
        written_back ("/no_skip" +:+ rest) info' /\ same_but_skip info info')
  /\ (forall rest, exists info',
        written_back ("/in_campus" +:+ rest) info'
        /\ same_but_in_campus info info' /\ in_campus info' = true)
  /\ (forall rest, exists info',
        written_back ("/out_of_campus" +:+ rest) info'
        /\ same_but_in_campus info info' /\ in_campus info' = false).
Proof.
  intros H written_back. subst written_back. cbv beta. unfold text_request.
  repeat split.
  - intros S h m Hp Vh Vm. eexists. rewrite fetch_of_dispatch.
    rewrite (dispatch_checkin_at _ _ _ h m _ _ H Hp Vh Vm). by repeat split.
  - intros rest. eexists. rewrite fetch_of_dispatch.
    rewrite (dispatch_skip _ _ _ _ _ H). by repeat split.
  - intros rest. eexists. rewrite fetch_of_dispatch.
    rewrite (dispatch_no_skip _ _ _ _ _ H).
    split; [done|]. by destruct (skip info >? 0).
  - intros rest. eexists. rewrite fetch_of_dispatch.
    rewrite (dispatch_in_campus _ _ _ _ _ H). by repeat split.
  - intros rest. eexists. rewrite fetch_of_dispatch.
    rewrite (dispatch_out_of_campus _ _ _ _ _ H). by repeat split.
Qed.

Lemma split_login_args user pass :
  contains " " user = false -> contains " " pass = false ->
  split " " ("/login " +:+ user +:+ String " " pass) = ["/login"; user; pass].
Proof.
  intros Hu Hp.
  change ("/login " +:+ user +:+ String " " pass)
    with ("/login" +:+ String " " (user +:+ String " " pass)).
  rewrite split_at_first by done.
  rewrite split_at_first by done.
  by rewrite split_without.
Qed.

(** C5. [/login user pass]: when the portal login throws, nothing is written
    and, for a [LoginError], the handler answers with its message; when it
    returns, the chat's key is overwritten with the record made of the
    supplied credentials and the defaults, whatever was stored before:
    schedule 17:30, no skip, in campus, the default address and place. *)
Theorem login_all_or_nothing env chat user pass json w :
  contains " " user = false -> contains " " pass = false ->
  let request := text_request json chat ("/login " +:+ user +:+ String " " pass) in
  (forall message w1,
     login env user pass w = (Throw (LoginError message), w1) ->
     fetch env request w = (Ok EndWithError, logged w1 [Send chat (Text message) false])
     /\ kv (logged w1 [Send chat (Text message) false]) = kv w)
  /\ (forall e w1 r w',
        login env user pass w = (Throw e, w1) ->
        fetch env request w = (r, w') -> kv w' = kv w)
  /\ (forall cookies w1,
        login env user pass w = (Ok cookies, w1) ->
        let info := login_record chat user pass in
        fetch env request w =
          (Ok Success, logged (written w1 (user_key (Int chat)) (InfoJson info))
                         [Send chat (Json info) true])
        /\ kv (written w1 (user_key (Int chat)) (InfoJson info))
           = <[user_key (Int chat) := InfoJson info]> (kv w)
        /\ username info = user /\ password info = pass /\ chat_id info = chat
        /\ hh info = 17 /\ mm info = 30 /\ skip info = 0 /\ in_campus info = true
        /\ province info = "北京市" /\ city info = "北京市" /\ area info = "北京市 海淀区"
        /\ address info = "北京市海淀区花园路街道北京航空航天大学大运村学生公寓"
        /\ location info =
             {| longitude := 116343699 # 1000000; latitude := 39977847 # 1000000 |}).
Proof.
  intros Hu Hp request.
  assert (Hd : dispatch env (text_update chat ("/login " +:+ user +:+ String " " pass)) w =
               match login env user pass w with
               | (Ok _, w1) =>
                   (Ok tt, logged (written w1 (user_key (Int chat))
                                     (InfoJson (login_record chat user pass)))
                             [Send chat (Json (login_record chat user pass)) true])
               | (Throw e, w1) => (Throw e, w1)
               end).
  { prefix_tests. rewrite (split_login_args _ _ Hu Hp). unfold bind at 1.
    destruct (login env user pass w) as [[cookies|e] w1]; [|done].
    by rewrite put_then_echo. }
  subst request. unfold text_request. rewrite fetch_of_dispatch, Hd.
  split; [|split].
  - intros message w1 Hl. rewrite Hl. split; [done|].
    simpl. by apply reading_login in Hl.
  - intros e w1 r w' Hl. rewrite Hl. apply reading_login in Hl.
    cbv zeta. destruct e; intros [= <- <-]; done.
  - intros cookies w1 Hl. cbv zeta. rewrite Hl. split; [done|].
    split; [|by repeat split]. simpl. by apply reading_login in Hl as ->.
Qed.

(** C8. A location message on an existing record: the geocoder's province
    and formatted address are stored, the city is its city when that is a
    string and its province otherwise, the area is the city, a blank and the
    geocoder's district, the coordinates are those of the message, and the
    rest of the record is as it was. *)
Theorem location_message_stores_geocode env chat loc json w info regeocode resp :
  holds_record w (Int chat) info ->
  gaode_regeo env loc = GaodeJson regeocode (Some resp) ->
  exists info',
    fetch env (BodyJson json (Some (location_update chat loc))) w =
      (Ok Success, logged (written w (user_key (Int chat)) (InfoJson info'))
                     [GaodeLookup loc; Send (chat_id info) (Json info') true])
    /\ province info' = ac_province resp
    /\ address info' = formatted_address resp
    /\ area info' = city info' +:+ " " +:+ ac_district resp
    /\ location info' = loc
    /\ (forall s, ac_city resp = CityString s -> city info' = s)
    /\ (forall l, ac_city resp = CityArray l -> city info' = ac_province resp)
    /\ username info' = username info /\ password info' = password info
    /\ chat_id info' = chat_id info /\ hh info' = hh info /\ mm info' = mm info
    /\ skip info' = skip info /\ in_campus info' = in_campus info.
Proof.
  intros H Hg. eexists. rewrite fetch_of_dispatch.
  unfold dispatch, location_update.
  cbn [message_text message_chat_id message_location].
  unfold bind at 1. unfold emit at 1. rewrite Hg. cbv zeta.
  erewrite update_then_echo;
    [| apply holds_record_logged with (es := [GaodeLookup loc]) in H; exact H
     | apply up_location with (c := match ac_city resp with
                                    | CityString s => s
                                    | CityArray _ => ac_province resp
                                    end) ].
  cbv beta iota. split.
  { unfold logged, written; simpl. by rewrite <- app_assoc. }
  simpl. repeat split; try done.
  - by intros s ->.
  - by intros l ->.
Qed.

(** ** The sweep as a whole *)

Section Quiet.
Context {A B : Type}.

Lemma quiet_ret (a : A) : quiet (ret a).
Proof. by intros w r w' [= <- <-]. Qed.

Lemma quiet_throw e : quiet (@throw A e).
Proof. by intros w r w' [= <- <-]. Qed.

Lemma quiet_bind (c : M A) (k : A -> M B) :
  quiet c -> (forall a, quiet (k a)) -> quiet (bind c k).
Proof.
  intros Hc Hk w r w'. unfold bind.
  destruct (c w) as [[a|e] w1] eqn:E; specialize (Hc _ _ _ E).
  - intros E'. by rewrite (Hk _ _ _ _ E').
  - by intros [= <- <-].
Qed.

Lemma quiet_try_catch (c : M A) (handler : exn -> M A) :
  quiet c -> (forall e, quiet (handler e)) -> quiet (try_catch c handler).
Proof.
  intros Hc Hh w r w'. unfold try_catch.
  destruct (c w) as [[a|e] w1] eqn:E; specialize (Hc _ _ _ E).
  - by intros [= <- <-].
  - intros E'. by rewrite (Hh _ _ _ _ E').
Qed.
End Quiet.

Lemma quiet_emit e : is_portal_call e = false -> quiet (emit e).
Proof.
  intros He w r w' [= <- <-]. unfold portal_calls; simpl.
  rewrite List.filter_app; simpl. rewrite He. apply app_nil_r.
Qed.

Lemma quiet_kv_put key value : quiet (kv_put key value).
Proof. by intros w r w' [= <- <-]. Qed.

Lemma quiet_info_of env id : quiet (info_of env id).
Proof. intros w r w' H. by apply info_of_inv in H as [-> _]. Qed.

Lemma quiet_send env chat msg markdown : quiet (send_message_to env chat msg markdown).
Proof. by apply quiet_emit. Qed.

Lemma quiet_check_with_user env id : quiet (check_with_user env id).
Proof.
  unfold check_with_user. apply quiet_bind; [apply quiet_info_of|].
  intros info. apply quiet_send.
Qed.

Lemma quiet_sweep_key env now_hh now_mm name users :
  quiet (sweep_key env now_hh now_mm name users).
Proof.
  unfold sweep_key. apply quiet_try_catch.
  - apply quiet_bind; [apply quiet_info_of|]. intros info. cbv zeta.
    destruct (_ >? 10); [apply quiet_ret|].
    apply quiet_bind; [|intros ?; apply quiet_ret].
    destruct (_ >? 0); [|apply quiet_ret].
    apply quiet_bind; [apply quiet_kv_put|]. intros _.
    apply quiet_bind; [apply quiet_send|]. intros _.
    apply quiet_bind; [apply quiet_check_with_user|]. intros _. apply quiet_ret.
  - intros e. destruct e; try apply quiet_throw.
    apply quiet_bind; [by apply quiet_emit | intros _; apply quiet_ret].
Qed.

Lemma quiet_sweep_keys env now_hh now_mm keys users :
  quiet (sweep_keys env now_hh now_mm keys users).
Proof.
  revert users. induction keys as [|name keys IH]; intros users; simpl.
  - apply quiet_ret.
  - apply quiet_bind; [apply quiet_sweep_key|].
    intros [[] users']; [apply IH | apply quiet_ret].
Qed.

(** The enumeration of a list of keys, cut in two. *)
Lemma sweep_keys_app env now_hh now_mm keys keys' users w :
  sweep_keys env now_hh now_mm (keys ++ keys') users w =
    match sweep_keys env now_hh now_mm keys users w with
    | (Ok (Next, users1), w1) => sweep_keys env now_hh now_mm keys' users1 w1
    | other => other
    end.
Proof.
  revert users w. induction keys as [|name keys IH]; intros users w; simpl; [done|].
  unfold bind.
  destruct (sweep_key env now_hh now_mm name users w) as [[[[] users1]|e] w1];
    first [apply IH | done].
Qed.

(** The pages are enumerated as one list of keys. *)
Lemma sweep_pages_listed env now_hh now_mm value users w :
  sweep_pages env now_hh now_mm value users w =
    sweep_keys env now_hh now_mm (listed value) users w.
Proof.
  revert users w. induction value as [keys|keys cursor IH]; intros users w; simpl; [done|].
  rewrite sweep_keys_app. unfold bind.
  destruct (sweep_keys env now_hh now_mm keys users w) as [[[[] users1]|e] w1];
    first [apply IH | done].
Qed.

(** C6. When the enumeration of the sweep comes to a key whose record is
    missing or does not pass the reader, the sweep ends there: on
    [UserNotFound] it logs and returns, on [InvalidUserInfo] the exception
    leaves [do_scheduled]. The world is the one the enumeration had reached
    (with the log line), so no later key is read; no portal call is made,
    not for the users queued so far either; and the enumeration does not
    complete with a queue. *)
Theorem sweep_aborts_on_bad_record env w before name after users1 w1 e :
  let now_hh := (utc_hours env + 8) mod 24 in
  let now_mm := utc_minutes env in
  listed (kv_list env) = before ++ name :: after ->
  sweep_keys env now_hh now_mm before [] w = (Ok (Next, users1), w1) ->
  info_of env (id_of_key name) w1 = (Throw e, w1) ->
  (exists id, e = UserNotFound id) \/ (exists json, e = InvalidUserInfo json) ->
  do_scheduled env w =
    match e with
    | UserNotFound id =>
        (Ok tt, logged w1 [ConsoleError ("User not found for id " +:+ string_of_number id)])
    | _ => (Throw e, w1)
    end
  /\ portal_calls (snd (do_scheduled env w)) = portal_calls w
  /\ (forall users w', sweep_pages env now_hh now_mm (kv_list env) [] w
                       <> (Ok (Next, users), w')).
Proof.
  intros now_hh now_mm Hl Hb Hi He.
  assert (Hp : sweep_pages env now_hh now_mm (kv_list env) [] w =
               match e with
               | UserNotFound id =>
                   (Ok (Return, users1),
                    logged w1 [ConsoleError ("User not found for id "
                                             +:+ string_of_number id)])
               | _ => (Throw e, w1)
               end).
  { rewrite sweep_pages_listed, Hl, sweep_keys_app, Hb. simpl.
    unfold bind at 1. unfold sweep_key, try_catch. unfold bind at 1. rewrite Hi.
    by destruct He as [[id ->]|[json ->]]. }
  assert (Hd : do_scheduled env w =
               match e with
               | UserNotFound id =>
                   (Ok tt, logged w1 [ConsoleError ("User not found for id "
                                                    +:+ string_of_number id)])
               | _ => (Throw e, w1)
               end).
  { unfold do_scheduled. cbv zeta. unfold bind at 1.
    fold now_hh now_mm. rewrite Hp.
    by destruct He as [[id ->]|[json ->]]. }
  split; [done|]. split.
  - rewrite Hd. apply quiet_sweep_keys in Hb.
    destruct He as [[id ->]|[json ->]]; simpl; [|done].
    unfold portal_calls in *; simpl. rewrite List.filter_app; simpl.
    by rewrite app_nil_r.
  - intros users w'. rewrite Hp. by destruct He as [[id ->]|[json ->]].
Qed.

Lemma holds_record_consumed w info chat info' :
  chat <> chat_id info ->
  holds_record w (Int chat) info' -> holds_record (consumed w info) (Int chat) info'.
Proof.
  intros Hne [Hk Hd]. unfold consumed. destruct (skip info >? 0); [|done].
  split; [|done]. simpl. rewrite lookup_insert_ne; [done|].
  intros E. apply user_key_inj in E. congruence.
Qed.

(** The enumeration over records that sit under the keys of their own
    chats. *)
Lemma sweep_keys_own_keys env now_hh now_mm infos users w :
  NoDup (map chat_id infos) ->
  Forall (fun info => holds_record w (Int (chat_id info)) info) infos ->
  let selected := List.filter (in_window now_hh now_mm) infos in
  sweep_keys env now_hh now_mm (map (fun info => user_key (Int (chat_id info))) infos) users w
    = (Ok (Next, users ++ map consume selected), fold_left consumed selected w).
Proof.
  revert users w. induction infos as [|info infos IH]; intros users w Hnd HF selected.
  { simpl. by rewrite app_nil_r. }
  subst selected. simpl in Hnd. apply NoDup_cons in Hnd as [Hnotin Hnd].
  apply Forall_cons in HF as [Hh HF].
  assert (Hh' : holds_record w (id_of_key (user_key (Int (chat_id info)))) info)
    by (by rewrite id_of_key_user_key).
  assert (Hrest : forall w', (forall chat info', chat <> chat_id info ->
                      holds_record w (Int chat) info' -> holds_record w' (Int chat) info') ->
                    Forall (fun info0 => holds_record w' (Int (chat_id info0)) info0) infos).
  { intros w' Hw'. apply Forall_forall. intros info0 Hin.
    apply Hw'; [|by apply (proj1 (Forall_forall _ _) HF)].
    intros E. apply Hnotin. rewrite <- E.
    apply list_elem_of_In, in_map. by apply list_elem_of_In. }
  cbn [map sweep_keys List.filter]. unfold bind at 1.
  destruct (in_window now_hh now_mm info) eqn:Hwin; unfold in_window in Hwin;
    [apply Z.leb_le in Hwin as Hin | apply Z.leb_gt in Hwin as Hout].
  - destruct (Z_lt_le_dec 0 (skip info)) as [Hs|Hs].
    + rewrite (sweep_key_skip _ _ _ _ _ _ _ Hh' Hin Hs).
      rewrite id_of_key_user_key.
      rewrite (check_with_user_holds _ _ _ (set_skip info (skip info - 1))).
      2:{ apply holds_record_logged.
          change (chat_id info) with (chat_id (set_skip info (skip info - 1))).
          apply holds_record_written, decode_set_skip, Hh. }
      assert (Hgt : (skip info >? 0) = true) by by apply gtb_true_iff.
      assert (Hc : consume info = set_skip info (skip info - 1))
        by (unfold consume; by rewrite Hgt).
      assert (Hw : logged (logged (written w (user_key (Int (chat_id info)))
                                     (InfoJson (set_skip info (skip info - 1))))
                             [Send (chat_id info) (Text "skip for today") false])
                     [Send (chat_id (set_skip info (skip info - 1)))
                        (Json (set_skip info (skip info - 1))) true]
                   = consumed w info).
      { unfold consumed. rewrite Hgt, Hc, logged_logged. done. }
      rewrite Hw. cbn [map fold_left]. rewrite <- Hc.
      rewrite (IH (users ++ [consume info]) (consumed w info) Hnd).
      * by rewrite <- app_assoc.
      * apply Hrest. intros chat info' Hne. by apply holds_record_consumed.
    + rewrite (sweep_key_queued _ _ _ _ _ _ _ Hh' Hin Hs).
      assert (Hle : (skip info >? 0) = false) by by apply gtb_false_iff.
      assert (Hc : consume info = info) by (unfold consume; by rewrite Hle).
      assert (Hw : consumed w info = w) by (unfold consumed; by rewrite Hle).
      cbn [map fold_left]. rewrite Hc, Hw.
      rewrite (IH (users ++ [info]) w Hnd HF). by rewrite <- app_assoc.
  - rewrite (sweep_key_outside _ _ _ _ _ _ _ Hh') by lia.
    apply (IH users w Hnd HF).
Qed.

(** C2. In the sweep at the current time of day T, in minutes since
    midnight at UTC+8, over a namespace whose records sit under the keys of
    their own chats: a record is selected if and only if its check-in time
    is within 10 minutes of T, the bound included, and the sweep is
    determined by the selected records alone. Each of them, in the order of
    the listing, has its pending skip consumed with the two notices and is
    queued; a record outside the window is neither written nor notified nor
    queued. *)
Theorem sweep_selects_exactly_the_window env w infos :
  listed (kv_list env) = map (fun info => user_key (Int (chat_id info))) infos ->
  NoDup (map chat_id infos) ->
  Forall (fun info => holds_record w (Int (chat_id info)) info) infos ->
  let now_hh := (utc_hours env + 8) mod 24 in
  let now_mm := utc_minutes env in
  let T := now_hh * 60 + now_mm in
  let selected := List.filter (in_window now_hh now_mm) infos in
  (forall info,
     In info selected <-> In info infos /\ Z.abs (hh info * 60 + mm info - T) <= 10)
  /\ do_scheduled env w =
       checkin_all env (map consume selected)
         (logged (fold_left consumed selected w)
            [ConsoleLog ("schedule for "
                         +:+ string_of_number (Int (Z.of_nat (length selected)))
                         +:+ " users")]).
Proof.
  intros Hl Hnd HF now_hh now_mm T selected. split.
  - intros info. subst selected. rewrite filter_In. unfold in_window.
    by rewrite Z.leb_le.
  - unfold do_scheduled. cbv zeta. unfold bind at 1.
    rewrite sweep_pages_listed, Hl.
    rewrite (sweep_keys_own_keys env _ _ infos [] w Hnd HF). cbv zeta.
    fold now_hh now_mm selected. cbn [app].
    rewrite length_map. done.
Qed.

(** C1. The sweep on a record inside its window with a skip pending: the
    counter is decremented and written, the skip notice and the record are
    sent, and then the same round logs in to the portal and submits the
    check-in form for that user. (The loop body has no [continue] after the
    skip block; the record is pushed on [users] all the same.) *)
Theorem skipped_user_is_still_checked_in :
  let info' := set_skip sample_info 0 in
  let w' := snd (do_scheduled one_key_env skipping_world) in
  fst (do_scheduled one_key_env skipping_world) = Ok tt
  /\ kv w' !! user_key (Int 42) = Some (InfoJson info')
  /\ trace w' =
       [Send 42 (Text "skip for today") false;
        Send 42 (Json info') true;
        ConsoleLog "schedule for 1 users";
        PortalLogin "alice" "secret";
        GaodeLookup (location info');
        PortalSave "sid=1"
          (checkin_form info' "{}" ++ [("sfzs", "1"); ("bzxyy", "2"); ("bzxyy_other", "")]);
        Send 42 (Text "checked in") false]
  /\ portal_calls w' <> [].
Proof. vm_compute. repeat split. discriminate. Qed.

(** ** The theorems on the small world *)

(** An empty side of the colon is the number 0 for the unary plus. *)
Example parses_with_empty_minutes : parses_as_time "16:" 16 0.
Proof. exists "16", "". vm_compute. repeat split. Qed.

(** [/checkin_at 20:00] is refused and nothing is written. *)
Example checkin_at_2000_refused :
  fetch sample_env (text_request "{}" 42 "/checkin_at 20:00") sample_world =
    (Ok EndWithError,
     logged sample_world
       [Send 42 (Text "Wrong checkin time: 20:00, hours should between 16 and 19, minutes shoud be 0 or 30.") false]).
Proof. vm_compute. reflexivity. Qed.

Lemma sample_world_holds : holds_record sample_world (Int 42) sample_info.
Proof. split; vm_compute; reflexivity. Defined.

Lemma sample_world_holds_by_key :
  holds_record sample_world (id_of_key "user:42") sample_info.
Proof. split; vm_compute; reflexivity. Defined.

Lemma sample_world_own_key :
  Forall (fun info => holds_record sample_world (Int (chat_id info)) info) [sample_info].
Proof. constructor; [exact sample_world_holds | constructor]. Defined.

(** At 17:40 the sweep checks in the record scheduled for 17:30, at 17:41
    it does not. *)
Lemma sweep_selects_exactly_the_window_witness :
  do_scheduled (with_clock one_key_env 9 40) sample_world =
    checkin_all (with_clock one_key_env 9 40) [sample_info]
      (logged sample_world [ConsoleLog "schedule for 1 users"])
  /\ do_scheduled (with_clock one_key_env 9 41) sample_world =
       (Ok tt, logged sample_world [ConsoleLog "schedule for 0 users"]).
Proof.
  split.
  - refine (proj2 (sweep_selects_exactly_the_window (with_clock one_key_env 9 40)
                     sample_world [sample_info] _ _ sample_world_own_key)).
    + reflexivity.
    + apply NoDup_singleton.
  - refine (proj2 (sweep_selects_exactly_the_window (with_clock one_key_env 9 41)
                     sample_world [sample_info] _ _ sample_world_own_key)).
    + reflexivity.
    + apply NoDup_singleton.
Defined.




(** [/skip] on the sample record stores a counter of 1. *)
Lemma skip_counter_never_negative_witness :
  exists info',
    fetch sample_env (text_request "{}" 42 "/skip") sample_world =
      (Ok Success, logged (written sample_world (user_key (Int 42)) (InfoJson info'))
                     [Send 42 (Json info') true])
    /\ skip info' = skip sample_info + 1
    /\ same_but_skip sample_info info'.
Proof.
  exact (proj1 (proj2 skip_counter_never_negative) sample_env 42 "" "{}"
           sample_world sample_info sample_world_holds).
Defined.

(** A refused login is answered with the portal's message and leaves the
    empty namespace empty. *)
Lemma login_all_or_nothing_witness :
  let w1 := logged {| kv := ∅; trace := [] |} [PortalLogin "alice" "secret"] in
  fetch refusing_env (text_request "{}" 42 "/login alice secret")
    {| kv := ∅; trace := [] |} =
    (Ok EndWithError, logged w1 [Send 42 (Text "Login Failed bad password") false])
  /\ kv (logged w1 [Send 42 (Text "Login Failed bad password") false]) = ∅.
Proof.
  refine (proj1 (login_all_or_nothing refusing_env 42 "alice" "secret" "{}"
                   {| kv := ∅; trace := [] |} _ _)
            "Login Failed bad password"
            (logged {| kv := ∅; trace := [] |} [PortalLogin "alice" "secret"]) _);
    reflexivity.
Defined.

(** The sweep of [sample_env] stops at the key of chat 7, which has no
    record. *)
Lemma sweep_aborts_on_bad_record_witness :
  do_scheduled sample_env sample_world =
    (Ok tt, logged sample_world [ConsoleError "User not found for id 7"]).
Proof.
  refine (proj1 (sweep_aborts_on_bad_record sample_env sample_world
                   ["user:42"] "user:7" [] [sample_info] sample_world
                   (UserNotFound (Int 7)) _ _ _ _)).
  - reflexivity.
  - vm_compute. reflexivity.
  - vm_compute. reflexivity.
  - left. by exists (Int 7).
Defined.

(** A location whose city the geocoder gives as an empty array. *)
Lemma location_message_stores_geocode_witness :
  exists info',
    fetch sample_env (BodyJson "{}" (Some (location_update 42
                        {| longitude := 121 # 1; latitude := 31 # 1 |}))) sample_world =
      (Ok Success, logged (written sample_world (user_key (Int 42)) (InfoJson info'))
                     [GaodeLookup {| longitude := 121 # 1; latitude := 31 # 1 |};
                      Send 42 (Json info') true])
    /\ city info' = "Shanghai" /\ area info' = "Shanghai Minhang".
Proof.
  destruct (location_message_stores_geocode sample_env 42
              {| longitude := 121 # 1; latitude := 31 # 1 |} "{}" sample_world
              sample_info "{}" sample_place sample_world_holds eq_refl)
    as (info' & Hf & Hp & Ha & Har & Hl & Hs & Hc & _).
  exists info'. split; [exact Hf|]. split.
  - exact (Hc [] eq_refl).
  - rewrite Har, (Hc [] eq_refl). reflexivity.
Defined.

(** [/out_of_campus] changes the flag of the sample record and nothing else. *)
Lemma mutations_keep_other_fields_witness :
  exists info',
    fetch sample_env (text_request "{}" 42 "/out_of_campus") sample_world =
      (Ok Success, logged (written sample_world (user_key (Int 42)) (InfoJson info'))
                     [Send 42 (Json info') true])
    /\ same_but_in_campus sample_info info' /\ in_campus info' = false.
Proof.
  exact (proj2 (proj2 (proj2 (proj2
           (mutations_keep_other_fields sample_env 42 "{}" sample_world sample_info
              sample_world_holds)))) "").
Defined.

Lemma after_login_reachable :
  reachable (snd (fetch sample_env (text_request "{}" 42 "/login alice secret")
                    {| kv := ∅; trace := [] |})).
Proof.
  eapply reach_fetch; [apply reach_init|].
  apply surjective_pairing.
Defined.

(** After [/login] from chat 42, the key read back is 42. *)
Lemma chat_id_matches_key_witness :
  "user:42" = user_key (Int (chat_id sample_info))
  /\ id_of_key "user:42" = Int (chat_id sample_info).
Proof.
  refine (proj1 (chat_id_matches_key _ after_login_reachable) "user:42" sample_info _).
  vm_compute. reflexivity.
Defined.

(** * More of the worker *)

(** ** Keys and the reader *)

(** X1. The key written for an id reads back as that id in the sweep, and
    two ids never share a key. *)
Theorem key_round_trip id id' :
  id_of_key (user_key id) = id
  /\ (user_key id = user_key id' <-> id = id').
Proof.
  split; [apply id_of_key_user_key|].
  split; [apply user_key_inj | by intros ->].
Qed.

(** X2. After a record is written under the key of [id], [info_of] on [id]
    returns it when its schedule is in the domain and throws
    [InvalidUserInfo] otherwise; [info_of] on any other id answers as
    before the write. *)
Theorem put_then_info_of env id info w :
  let w1 := written w (user_key id) (InfoJson info) in
  info_of env id w1 =
    (if checkin_hh_is (hh info) && checkin_mm_is (mm info)
     then Ok info else Throw (InvalidUserInfo (InfoJson info)), w1)
  /\ (forall id', id' <> id ->
        fst (info_of env id' w1) = fst (info_of env id' w)).
Proof.
  intros w1. split.
  - unfold info_of, bind, kv_get, w1, written; simpl.
    rewrite lookup_insert_eq. simpl.
    by destruct (checkin_hh_is (hh info) && checkin_mm_is (mm info)).
  - intros id' Hne. unfold info_of, bind, kv_get, w1, written; simpl.
    rewrite lookup_insert_ne by (intros E; by apply user_key_inj in E).
    destruct (kv w !! user_key id') as [[t|t|raw]|]; simpl; try done.
    by destruct (checkin_hh_is (hh raw) && checkin_mm_is (mm raw)).
Qed.

(** ** The portal *)

(** X3. [login] makes one call to the portal and writes nothing. It returns
    the cookies exactly when the body is a [BuaaResp] whose [e] is not 1 and
    the response carries a set-cookie header; an [e] of 1 is a [LoginError]
    with the portal's message, whatever the headers; the only other
    exception is the [SyntaxError] of a body that is not JSON. *)
Theorem login_outcome env user pass w :
  let resp := portal_login env user pass in
  exists r,
    login env user pass w = (r, logged w [PortalLogin user pass])
    /\ (forall cookies,
          r = Ok cookies <->
          exists e m, login_body resp = BuaaResp e m /\ e <> 1
                      /\ set_cookie resp = Some cookies)
    /\ (forall m, login_body resp = BuaaResp 1 m ->
          r = Throw (LoginError ("Login Failed " +:+ m)))
    /\ (forall e, r = Throw e ->
          (exists message, e = LoginError message)
          \/ (exists text, e = SyntaxError text /\ login_body resp = NotJson text)).
Proof.
  intros resp. unfold login, bind, emit. fold (logged w [PortalLogin user pass]).
  fold resp. destruct (login_body resp) as [text|json|e m] eqn:Hb.
  - eexists. split; [done|]. split; [|split].
    + intros cookies. split; [done|]. by intros (e & m & [=] & _).
    + done.
    + intros e [= <-]. right. by exists text.
  - eexists. split; [done|]. split; [|split].
    + intros cookies. split; [done|]. by intros (e & m & [=] & _).
    + done.
    + intros e [= <-]. left. by eexists.
  - destruct (Z.eqb_spec e 1) as [->|Hne].
    + eexists. split; [done|]. split; [|split].
      * intros cookies. split; [done|]. by intros (e & m' & [= <- _] & ? & _).
      * by intros m' [= ->].
      * intros e [= <-]. left. by eexists.
    + destruct (set_cookie resp) as [cookies|] eqn:Hc.
      * eexists. split; [done|]. split; [|split].
        -- intros cookies'. split.
           ++ intros [= <-]. by exists e, m.
           ++ by intros (e' & m' & _ & _ & [= ->]).
        -- by intros m' [= -> _].
        -- done.
      * eexists. split; [done|]. split; [|split].
        -- intros cookies. split; [done|]. by intros (e' & m' & _ & _ & [=]).
        -- by intros m' [= -> _].
        -- intros e' [= <-]. left. by eexists.
Qed.

Lemma login_exceptions env user pass w e w' :
  login env user pass w = (Throw e, w') ->
  (exists message, e = LoginError message) \/ (exists text, e = SyntaxError text).
Proof.
  unfold login, bind, emit.
  destruct (login_body _) as [text|json|c m].
  - intros [= <- _]. right. by eexists.
  - intros [= <- _]. left. by eexists.
  - destruct (c =? 1); [intros [= <- _]; left; by eexists|].
    destruct (set_cookie _); [done|]. intros [= <- _]. left. by eexists.
Qed.

Lemma checkin_form_choice info regeocode :
  (if in_campus info
   then checkin_form info regeocode ++ [("sfzs", "1"); ("bzxyy", "2"); ("bzxyy_other", "")]
   else checkin_form info regeocode ++ [("sfzs", "0"); ("bzxyy", "2"); ("bzxyy_other", "")])
  = submitted_form info regeocode.
Proof. unfold submitted_form. by destruct (in_campus info). Qed.

(** What [checkin] does after a login that returned. *)
Lemma checkin_cases env info w cookies w1 :
  login env (username info) (password info) w = (Ok cookies, w1) ->
  let w2 := logged w [PortalLogin (username info) (password info);
                      GaodeLookup (location info)] in
  match gaode_regeo env (location info) with
  | GaodeNotJson text => checkin env info w = (Throw (SyntaxError text), w2)
  | GaodeNull =>
      checkin env info w =
        (Throw (TypeError "Cannot read properties of null (reading 'regeocode')"), w2)
  | GaodeJson regeocode _ =>
      let form := submitted_form info regeocode in
      let w3 := logged w2 [PortalSave cookies form] in
      checkin env info w =
        match portal_save env cookies form with
        | BuaaResp _ m => (Ok tt, logged w3 [Send (chat_id info) (Text m) false])
        | NotJson _ =>
            (Ok tt, logged w3 [Send (chat_id info)
                                 (Text "checkin failed: resp is not JSON") false])
        | NoBuaaResp json => (Throw (Error ("Invalid CheckIn Resp " +:+ json)), w3)
        end
  end.
Proof.
  intros Hl w2.
  destruct (login_outcome env (username info) (password info) w) as (r & Hr & _).
  rewrite Hl in Hr. injection Hr as <- ->.
  subst w2.
  destruct (gaode_regeo env (location info)) as [text| |regeocode decoded] eqn:Hg.
  - unfold checkin, bind, emit, throw. rewrite Hl, Hg.
    unfold logged; simpl. by rewrite <- app_assoc.
  - unfold checkin, bind, emit, throw. rewrite Hl, Hg.
    unfold logged; simpl. by rewrite <- app_assoc.
  - cbv zeta. unfold checkin, bind, emit, throw, send_message_to, emit. rewrite Hl, Hg.
    rewrite checkin_form_choice.
    unfold logged; simpl.
    destruct (portal_save env cookies _); simpl; by rewrite <- !app_assoc.
Qed.

(** X4. [checkin] never writes to the namespace. When the login throws,
    [checkin] throws the same and neither the geocoder nor the check-in
    endpoint is called. When the login returns, the geocoder is asked once:
    a body that is not JSON throws [SyntaxError] and the body [null] throws
    [TypeError], both before any form is submitted; on any other JSON the
    form is submitted once, the portal's message is sent to the record's
    chat whatever its code [e] is, a body that is not JSON is reported to
    the chat as such, and a JSON body of another shape throws [Error] with
    nothing sent. *)
Theorem checkin_outcome env info w :
  let user := username info in
  let pass := password info in
  kv (snd (checkin env info w)) = kv w
  /\ (forall e w1,
        login env user pass w = (Throw e, w1) ->
        checkin env info w = (Throw e, logged w [PortalLogin user pass]))
  /\ (forall cookies w1,
        login env user pass w = (Ok cookies, w1) ->
        let w2 := logged w [PortalLogin user pass; GaodeLookup (location info)] in
        match gaode_regeo env (location info) with
        | GaodeNotJson text => checkin env info w = (Throw (SyntaxError text), w2)
        | GaodeNull =>
            checkin env info w =
              (Throw (TypeError "Cannot read properties of null (reading 'regeocode')"), w2)
        | GaodeJson regeocode _ =>
            let form := submitted_form info regeocode in
            let w3 := logged w2 [PortalSave cookies form] in
            checkin env info w =
              match portal_save env cookies form with
              | BuaaResp _ m => (Ok tt, logged w3 [Send (chat_id info) (Text m) false])
              | NotJson _ =>
                  (Ok tt, logged w3 [Send (chat_id info)
                                       (Text "checkin failed: resp is not JSON") false])
              | NoBuaaResp json => (Throw (Error ("Invalid CheckIn Resp " +:+ json)), w3)
              end
        end).
Proof.
  intros user pass. split; [|split].
  - destruct (checkin env info w) as [r w'] eqn:Hc. by apply reading_checkin in Hc.
  - intros e w1 Hl.
    destruct (login_outcome env user pass w) as (r & Hr & _).
    rewrite Hl in Hr. injection Hr as <- ->.
    unfold checkin, bind at 1. fold user pass. by rewrite Hl.
  - intros cookies w1 Hl. exact (checkin_cases env info w cookies w1 Hl).
Qed.

(** X5. The submitted form names no field twice; it carries the record's
    area, city, province and address and the geocoder's [regeocode] text,
    and its [sfzs] is 1 for a record in campus and 0 otherwise. *)
Theorem submitted_form_fields info regeocode :
  let form := submitted_form info regeocode in
  NoDup (map fst form)
  /\ length form = 39%nat
  /\ form_get "area" form = Some (area info)
  /\ form_get "city" form = Some (city info)
  /\ form_get "province" form = Some (province info)
  /\ form_get "address" form = Some (address info)
  /\ form_get "geo_api_info" form = Some regeocode
  /\ form_get "sfzs" form = Some (if in_campus info then "1" else "0").
Proof.
  intros form. split; [|by repeat split].
  subst form. unfold submitted_form, checkin_form. simpl.
  refine (bool_decide_unpack _ _). by vm_compute.
Qed.

Lemma checkin_all_app env users users' w :
  checkin_all env (users ++ users') w =
    match checkin_all env users w with
    | (Ok _, w1) => checkin_all env users' w1
    | (Throw e, w1) => (Throw e, w1)
    end.
Proof.
  revert w. induction users as [|user users IH]; intros w; simpl; [done|].
  unfold bind. destruct (checkin env user w) as [[[]|e] w1]; [apply IH | done].
Qed.

(** X6. The check-ins of a queue run in its order, and the first one that
    throws ends them: no user behind it is checked in. *)
Theorem checkin_all_stops_at_first_failure env before user after w w1 e w2 :
  checkin_all env before w = (Ok tt, w1) ->
  checkin env user w1 = (Throw e, w2) ->
  checkin_all env (before ++ user :: after) w = (Throw e, w2).
Proof.
  intros Hb Hu. rewrite checkin_all_app, Hb. simpl. unfold bind. by rewrite Hu.
Qed.

(** ** The sweep *)

(** One round on a record with no skip pending. *)
Lemma sweep_selects_skip_free env now_hh now_mm name users w info :
  holds_record w (id_of_key name) info -> skip info <= 0 ->
  sweep_key env now_hh now_mm name users w =
    (Ok (Next, if Z.abs (hh info * 60 + mm info - (now_hh * 60 + now_mm)) <=? 10
               then users ++ [info] else users), w).
Proof.
  intros H Hs.
  destruct (Z.leb_spec (Z.abs (hh info * 60 + mm info - (now_hh * 60 + now_mm))) 10).
  - by apply (sweep_key_queued _ _ _ _ _ _ _ H).
  - by apply (sweep_key_outside _ _ _ _ _ _ _ H).
Qed.

(** X7. When every listed key holds a record that the reader accepts and
    that has no skip pending, the sweep writes and sends nothing while it
    enumerates, logs the length of its queue, and checks in exactly the
    records inside the window, in the order of the listing. *)
Theorem sweep_queues_in_listing_order env infos w :
  Forall2 (fun name info => holds_record w (id_of_key name) info /\ skip info <= 0)
    (listed (kv_list env)) infos ->
  let queue := List.filter (in_window ((utc_hours env + 8) mod 24) (utc_minutes env)) infos in
  do_scheduled env w =
    checkin_all env queue
      (logged w [ConsoleLog ("schedule for "
                             +:+ string_of_number (Int (Z.of_nat (length queue)))
                             +:+ " users")]).
Proof.
  intros H queue.
  assert (Hk : forall keys users,
             Forall2 (fun name info => holds_record w (id_of_key name) info /\ skip info <= 0)
               keys infos ->
             sweep_keys env ((utc_hours env + 8) mod 24) (utc_minutes env) keys users w =
               (Ok (Next, users ++ queue), w)).
  { subst queue. clear H. induction infos as [|info infos IH]; intros keys users HF.
    - apply Forall2_nil_inv_r in HF as ->. simpl. by rewrite app_nil_r.
    - apply Forall2_cons_inv_r in HF as (name & keys' & [Hh Hs] & HF & ->).
      simpl. unfold bind.
      rewrite (sweep_selects_skip_free env _ _ name users w info Hh Hs).
      unfold in_window.
      destruct (Z.abs _ <=? 10).
      + rewrite (IH _ _ HF). by rewrite <- app_assoc.
      + by rewrite (IH _ _ HF). }
  unfold do_scheduled. cbv zeta. unfold bind at 1.
  rewrite sweep_pages_listed, (Hk _ _ H). simpl.
  unfold bind, emit. done.
Qed.

Lemma sweep_keys_with_listing env value now_hh now_mm keys users w :
  sweep_keys (with_listing env value) now_hh now_mm keys users w =
    sweep_keys env now_hh now_mm keys users w.
Proof.
  revert users w. induction keys as [|name keys IH]; intros users w; simpl; [done|].
  unfold bind.
  change (sweep_key (with_listing env value) now_hh now_mm name users w)
    with (sweep_key env now_hh now_mm name users w).
  destruct (sweep_key env now_hh now_mm name users w) as [[[[] users1]|e] w1];
    first [apply IH | done].
Qed.

Lemma checkin_all_with_listing env value users w :
  checkin_all (with_listing env value) users w = checkin_all env users w.
Proof.
  revert w. induction users as [|user users IH]; intros w; simpl; [done|].
  unfold bind.
  change (checkin (with_listing env value) user w) with (checkin env user w).
  destruct (checkin env user w) as [[[]|e] w1]; first [apply IH | done].
Qed.

(** X8. The sweep depends on the listing only through its keys in order:
    how [env.kv.list] cuts them into pages changes nothing. *)
Theorem sweep_ignores_page_boundaries env value value' w :
  listed value = listed value' ->
  do_scheduled (with_listing env value) w = do_scheduled (with_listing env value') w.
Proof.
  intros H. unfold do_scheduled. cbv zeta. unfold bind at 1 3.
  cbn [kv_list utc_hours utc_minutes with_listing].
  rewrite !sweep_pages_listed, !sweep_keys_with_listing, H.
  destruct (sweep_keys env _ _ _ _ _) as [[[[] users]|e] w1]; try done.
  unfold bind, emit. by rewrite !checkin_all_with_listing.
Qed.

Lemma lowered_refl m : lowered m m.
Proof. intros key. by left. Qed.

Lemma lowered_trans m1 m2 m3 : lowered m1 m2 -> lowered m2 m3 -> lowered m1 m3.
Proof.
  intros H12 H23 key.
  destruct (H12 key) as [E12|(a & b & Ha & Hb & Hs & Hlt)];
    destruct (H23 key) as [E23|(b' & c & Hb' & Hc & Hs' & Hlt')].
  - left. congruence.
  - right. exists b', c. rewrite <- E12. done.
  - right. exists a, b. rewrite E23. done.
  - right. rewrite Hb in Hb'. injection Hb' as <-. exists a, c.
    split; [done|]. split; [done|]. split; [|lia].
    destruct Hs as (?&?&?&?&?&?&?&?&?&?&?), Hs' as (?&?&?&?&?&?&?&?&?&?&?).
    repeat split; congruence.
Qed.

Lemma reading_lowering {A} (c : M A) : reading c -> lowering c.
Proof. intros H w r w' Hc. rewrite (H _ _ _ Hc). apply lowered_refl. Qed.

Lemma lowering_bind {A B} (c : M A) (k : A -> M B) :
  lowering c -> (forall a, lowering (k a)) -> lowering (bind c k).
Proof.
  intros Hc Hk w r w'. unfold bind.
  destruct (c w) as [[a|e] w1] eqn:E; specialize (Hc _ _ _ E).
  - intros E'. exact (lowered_trans _ _ _ Hc (Hk _ _ _ _ E')).
  - by intros [= <- <-].
Qed.

Lemma lowered_skip m id info :
  m !! user_key id = Some (InfoJson info) -> 0 < skip info ->
  lowered m (<[user_key id := InfoJson (set_skip info (skip info - 1))]> m).
Proof.
  intros Hk Hs key. destruct (decide (key = user_key id)) as [->|Hne].
  - right. exists info, (set_skip info (skip info - 1)).
    rewrite lookup_insert_eq. split; [done|]. split; [done|].
    split; [by repeat split | simpl; lia].
  - left. by rewrite lookup_insert_ne.
Qed.

Lemma lowering_sweep_key env now_hh now_mm name users :
  lowering (sweep_key env now_hh now_mm name users).
Proof.
  intros w r w' H.
  destruct (info_of env (id_of_key name) w) as [[info|e] w1] eqn:Hi.
  - apply info_of_inv in Hi as [-> Hi].
    destruct (Z_le_gt_dec (Z.abs (hh info * 60 + mm info - (now_hh * 60 + now_mm))) 10)
      as [Hin|Hout].
    + destruct (Z_lt_le_dec 0 (skip info)) as [Hs|Hs].
      * rewrite (sweep_key_skip _ _ _ _ _ _ _ Hi Hin Hs) in H.
        destruct Hi as [Hk Hd].
        destruct (check_with_user _ _ _) as [[[]|e] w2] eqn:Hc;
          apply reading_check_with_user in Hc; simpl in Hc.
        2: destruct e.
        all: injection H as <- <-; simpl; rewrite Hc.
        all: by apply lowered_skip.
      * rewrite (sweep_key_queued _ _ _ _ _ _ _ Hi Hin Hs) in H.
        injection H as <- <-. apply lowered_refl.
    + rewrite (sweep_key_outside _ _ _ _ _ _ _ Hi) in H by lia.
      injection H as <- <-. apply lowered_refl.
  - pose proof (reading_info_of _ _ _ _ _ Hi) as Hk.
    unfold sweep_key, try_catch, bind in H. rewrite Hi in H.
    destruct e; injection H as <- <-; simpl; rewrite Hk; apply lowered_refl.
Qed.

Lemma lowering_sweep_keys env now_hh now_mm keys users :
  lowering (sweep_keys env now_hh now_mm keys users).
Proof.
  revert users. induction keys as [|name keys IH]; intros users; simpl.
  - apply reading_lowering, reading_ret.
  - apply lowering_bind; [apply lowering_sweep_key|].
    intros [[] users']; [apply IH | apply reading_lowering, reading_ret].
Qed.

Lemma lowering_do_scheduled env : lowering (do_scheduled env).
Proof.
  intros w r w'. unfold do_scheduled. cbv zeta. unfold bind at 1.
  rewrite sweep_pages_listed.
  destruct (sweep_keys env _ _ _ _ w) as [[[[] users]|e] w1] eqn:Hk;
    apply lowering_sweep_keys in Hk.
  - intros Hc. assert (kv w' = kv w1) as ->; [|done].
    revert Hc. apply reading_bind; [apply reading_emit|].
    intros _. apply reading_checkin_all.
  - by intros [= <- <-].
  - by intros [= <- <-].
Qed.

(** X9. All that the sweep does to the namespace is to lower skip counters:
    under every key the value after [do_scheduled] is the value before, or
    the same record with a lower counter that is still not negative. No key
    appears or disappears. *)
Theorem sweep_only_lowers_skip env w r w' :
  do_scheduled env w = (r, w') ->
  lowered (kv w) (kv w')
  /\ (forall key, is_Some (kv w' !! key) <-> is_Some (kv w !! key)).
Proof.
  intros H. apply lowering_do_scheduled in H. split; [done|].
  intros key. destruct (H key) as [->|(a & b & -> & -> & _)]; [done|].
  split; eauto.
Qed.

(** ** The namespace the worker builds *)

Lemma well_kept_change m m' : change m m' -> well_kept m -> well_kept m'.
Proof.
  intros [chat user pass|id info info' Hk Hd Hu|chat] Hm key value.
  - rewrite lookup_insert. case_decide as E; [|apply Hm].
    intros [= <-]. exists (login_record chat user pass). by rewrite <- E.
  - rewrite lookup_insert. case_decide as E; [|apply Hm].
    intros [= <-]. exists info'. split; [done|].
    split; [by apply (update_decode info)|].
    destruct (Hm _ _ Hk) as (info0 & [= <-] & _ & Hkey).
    by rewrite <- E, (update_chat_id _ _ Hu).
  - rewrite lookup_delete. case_decide; [done | apply Hm].
Qed.

Lemma well_kept_evolves m m' : rtc change m m' -> well_kept m -> well_kept m'.
Proof.
  induction 1 as [|m1 m2 m3 H12 _ IH]; [done|]. intros H. by eapply IH, well_kept_change.
Qed.

Lemma well_kept_holds w key :
  well_kept (kv w) -> is_Some (kv w !! key) ->
  exists info, holds_record w (id_of_key key) info
               /\ id_of_key key = Int (chat_id info)
               /\ key = user_key (Int (chat_id info)).
Proof.
  intros Hw [value Hv]. destruct (Hw _ _ Hv) as (info & -> & Hd & Hkey).
  exists info. rewrite Hkey at 1 2. rewrite id_of_key_user_key.
  split; [|done]. split; [by rewrite <- Hkey | done].
Qed.

Lemma reachable_well_kept w : reachable w -> well_kept (kv w).
Proof.
  intros Hw. apply (well_kept_evolves ∅); [by apply reachable_evolves|].
  intros key value. by rewrite lookup_empty.
Qed.

(** X10. In every world the worker reaches from the empty namespace, each
    stored value is a record that the reader accepts, under the key of its
    own chat. So [info_of] there throws nothing but [UserNotFound], and
    only for an id without a key. *)
Theorem reachable_namespace_well_kept w :
  reachable w ->
  well_kept (kv w)
  /\ (forall env id e w',
        info_of env id w = (Throw e, w') ->
        e = UserNotFound id /\ kv w !! user_key id = None).
Proof.
  intros Hw.
  pose proof (reachable_well_kept _ Hw) as Hk.
  split; [done|].
  intros env id e w' Hi. apply info_of_inv in Hi as [-> Hi].
  destruct e; try done.
  - destruct Hi as [Hv Hd]. destruct (Hk _ _ Hv) as (info & -> & Hd' & _). congruence.
  - by destruct Hi as [-> ?].
  - destruct Hi as [t Hv]. by destruct (Hk _ _ Hv) as (info & [=] & _).
Qed.

Lemma well_kept_lowered m m' : lowered m m' -> well_kept m -> well_kept m'.
Proof.
  intros Hl Hm key value Hv.
  destruct (Hl key) as [E|(a & b & Ha & Hb & Hs & _)].
  - rewrite E in Hv. by apply Hm.
  - rewrite Hb in Hv. injection Hv as <-.
    destruct (Hm _ _ Ha) as (a' & [= <-] & Hd & Hkey).
    exists b. split; [done|].
    destruct Hs as (_ & _ & Hc & Hh & Hmm & _).
    split; [|by rewrite Hc].
    apply decode_Some in Hd as (_ & Vh & Vm). simpl. by rewrite Hh, Hmm, Vh, Vm.
Qed.

Lemma sweep_key_well_kept env now_hh now_mm name users w :
  well_kept (kv w) -> is_Some (kv w !! name) ->
  exists users' w1,
    sweep_key env now_hh now_mm name users w = (Ok (Next, users'), w1).
Proof.
  intros Hw Hn. destruct (well_kept_holds _ _ Hw Hn) as (info & H & Hid & Hkey).
  destruct (Z_le_gt_dec (Z.abs (hh info * 60 + mm info - (now_hh * 60 + now_mm))) 10)
    as [Hin|Hout].
  - destruct (Z_lt_le_dec 0 (skip info)) as [Hs|Hs].
    + rewrite (sweep_key_skip _ _ _ _ _ _ _ H Hin Hs).
      rewrite Hid.
      rewrite (check_with_user_holds _ _ _ (set_skip info (skip info - 1))); [by eauto|].
      apply holds_record_logged.
      change (chat_id info) with (chat_id (set_skip info (skip info - 1))).
      apply holds_record_written, decode_set_skip, H.
    + rewrite (sweep_key_queued _ _ _ _ _ _ _ H Hin Hs). eauto.
  - rewrite (sweep_key_outside _ _ _ _ _ _ _ H) by lia. eauto.
Qed.

Lemma sweep_keys_well_kept env now_hh now_mm keys users w :
  well_kept (kv w) -> (forall name, name ∈ keys -> is_Some (kv w !! name)) ->
  exists users' w1,
    sweep_keys env now_hh now_mm keys users w = (Ok (Next, users'), w1).
Proof.
  revert users w. induction keys as [|name keys IH]; intros users w Hw Hin; simpl.
  - by eauto.
  - destruct (sweep_key_well_kept env now_hh now_mm name users w Hw)
      as (users1 & w1 & Hk); [apply Hin; by left|].
    unfold bind. rewrite Hk.
    pose proof (lowering_sweep_key _ _ _ _ _ _ _ _ Hk) as Hl.
    apply IH; [by apply (well_kept_lowered (kv w))|].
    intros name' Hn. specialize (Hin name' ltac:(by right)).
    destruct (Hl name') as [->|(a & b & _ & -> & _)]; eauto.
Qed.

(** X11. On a namespace the worker built itself, with a listing that names
    stored keys only, the enumeration of the sweep never ends early: it
    throws nothing, it does not return at a missing user, and the sweep
    goes on to log the length of its queue and to check the queue in. *)
Theorem sweep_completes_on_own_namespace env w :
  reachable w ->
  (forall name, name ∈ listed (kv_list env) -> is_Some (kv w !! name)) ->
  exists users w1,
    sweep_pages env ((utc_hours env + 8) mod 24) (utc_minutes env) (kv_list env) [] w
      = (Ok (Next, users), w1)
    /\ do_scheduled env w =
         checkin_all env users
           (logged w1 [ConsoleLog ("schedule for "
                                   +:+ string_of_number (Int (Z.of_nat (length users)))
                                   +:+ " users")]).
Proof.
  intros Hw Hl.
  destruct (sweep_keys_well_kept env ((utc_hours env + 8) mod 24) (utc_minutes env)
              (listed (kv_list env)) [] w) as (users & w1 & Hk);
    [by apply reachable_well_kept | done |].
  exists users, w1. rewrite sweep_pages_listed. split; [done|].
  unfold do_scheduled. cbv zeta. unfold bind at 1.
  rewrite sweep_pages_listed, Hk. done.
Qed.

(** ** The webhook handler *)

Lemma startsWith_checkin_at rest :
  startsWith ("/checkin" +:+ rest) "/checkin_at " = startsWith rest "_at ".
Proof. reflexivity. Qed.

Lemma dispatch_checkin env chat rest w :
  startsWith rest "_at " = false ->
  dispatch env (text_update chat ("/checkin" +:+ rest)) w
    = bind (info_of env (Int chat)) (checkin env) w.
Proof.
  intros H. unfold dispatch, text_update.
  cbn [message_text message_chat_id message_location].
  rewrite startsWith_checkin_at, H. by prefix_tests.
Qed.


Lemma fetch_absent env json chat text w (k : UserInfo -> M unit) :
  kv w !! user_key (Int chat) = None ->
  dispatch env (text_update chat text) w = bind (info_of env (Int chat)) k w ->
  fetch env (text_request json chat text) w
    = (Ok EndWithError, logged w [no_record_notice chat]).
Proof.
  intros Hk Hd. unfold text_request. rewrite fetch_of_dispatch, Hd.
  unfold bind. by rewrite (info_of_absent _ _ _ Hk).
Qed.

(** X13. A command that needs the chat's record, sent from a chat without
    one, writes nothing and is answered with the does-not-exist notice and
    the error response: [/skip], [/no_skip], [/in_campus],
    [/out_of_campus], [/checkin], [/checkin_at] with a time of the domain,
    [/info] (after the time has been sent) and a location message (after the
    geocoder has been asked). *)
Theorem commands_need_a_record env chat json w :
  kv w !! user_key (Int chat) = None ->
  let refused text :=
    fetch env (text_request json chat text) w
      = (Ok EndWithError, logged w [no_record_notice chat]) in
  (forall rest, refused ("/skip" +:+ rest))
  /\ (forall rest, refused ("/no_skip" +:+ rest))
  /\ (forall rest, refused ("/in_campus" +:+ rest))
  /\ (forall rest, refused ("/out_of_campus" +:+ rest))
  /\ refused "/checkin"
  /\ (forall S h m,
        parses_as_time S h m -> checkin_hh_is h = true -> checkin_mm_is m = true ->
        refused ("/checkin_at " +:+ S))
  /\ (forall rest,
        fetch env (text_request json chat ("/info" +:+ rest)) w =
          (Ok EndWithError,
           logged w [Send chat
                       (Text ("Current Time: "
                              +:+ string_of_number (Int ((utc_hours env + 8) mod 24))
                              +:+ ":" +:+ string_of_number (Int (utc_minutes env)))) false;
                     no_record_notice chat]))
  /\ (forall loc regeocode resp,
        gaode_regeo env loc = GaodeJson regeocode (Some resp) ->
        fetch env (BodyJson json (Some (location_update chat loc))) w =
          (Ok EndWithError, logged w [GaodeLookup loc; no_record_notice chat])).
Proof.
  intros Hk refused. subst refused. cbv beta.
  repeat split.
  - intros rest. eapply fetch_absent; [done|]. by prefix_tests.
  - intros rest. eapply fetch_absent; [done|]. by prefix_tests.
  - intros rest. eapply fetch_absent; [done|]. by prefix_tests.
  - intros rest. eapply fetch_absent; [done|]. by prefix_tests.
  - eapply fetch_absent; [done|].
    change "/checkin" with ("/checkin" +:+ ""). by prefix_tests.
  - intros S h m (sh & sm & -> & Hsh & Hsm & Hblank & Hh & Hm) Vh Vm.
    eapply fetch_absent; [done|].
    prefix_tests. rewrite split_checkin_at.
    rewrite (split_without " ") by done.
    rewrite split_at_first, (split_without ":" sm) by done.
    rewrite Hh, Hm. simpl. by rewrite Vh, Vm.
  - intros rest. unfold text_request. rewrite fetch_of_dispatch.
    prefix_tests. unfold bind at 1. unfold send_message_to at 1, emit at 1.
    rewrite check_with_user_absent by done.
    unfold logged; simpl. by rewrite <- app_assoc.
  - intros loc regeocode resp Hg. rewrite fetch_of_dispatch.
    unfold dispatch, location_update.
    cbn [message_text message_chat_id message_location].
    unfold bind at 1. unfold emit at 1. rewrite Hg. cbv zeta.
    unfold bind at 1. rewrite info_of_absent by done.
    unfold logged; simpl. by rewrite <- app_assoc.
Qed.

Lemma split_login_rest rest :
  split " " ("/login " +:+ rest) = "/login" :: split " " rest.
Proof.
  change ("/login " +:+ rest) with ("/login" +:+ String " " rest).
  by rewrite split_at_first.
Qed.

(** X14. A text that begins with none of the eleven prefixes is answered
    with the invalid-command notice, which quotes it and carries the help,
    and with the error response; nothing is written. The same happens to
    [/login] with other than two arguments between single blanks, before
    the portal is asked. *)
Theorem unknown_command_is_refused env chat json w :
  (forall text,
     recognized text = false ->
     fetch env (text_request json chat text) w
       = (Ok EndWithError, logged w [invalid_command_notice chat text]))
  /\ (forall rest,
        length (split " " rest) <> 2%nat ->
        fetch env (text_request json chat ("/login " +:+ rest)) w
          = (Ok EndWithError, logged w [invalid_command_notice chat ("/login " +:+ rest)])).
Proof.
  split.
  - intros text H. unfold recognized in H. cbn [existsb] in H.
    repeat (apply orb_false_elim in H as [? H]).
    unfold text_request. rewrite fetch_of_dispatch.
    unfold dispatch, text_update. cbn [message_text message_chat_id message_location].
    repeat match goal with
           | E : startsWith text _ = false |- _ => rewrite E; clear E
           end.
    done.
  - intros rest Hn. unfold text_request. rewrite fetch_of_dispatch.
    prefix_tests. rewrite split_login_rest.
    destruct (split " " rest) as [|a [|b [|c l]]]; done.
Qed.

(** X15. A text that begins with [/checkin] and does not go on with [_at]
    and a blank is the command [/checkin]: the chat's record is read and
    checked in at once. So [/checkin_at] without the blank before its time
    checks in instead of setting a time. *)
Theorem checkin_prefix_takes_the_rest env chat rest w :
  startsWith rest "_at " = false ->
  dispatch env (text_update chat ("/checkin" +:+ rest)) w
    = bind (info_of env (Int chat)) (checkin env) w
  /\ (forall info,
        holds_record w (Int chat) info ->
        dispatch env (text_update chat ("/checkin" +:+ rest)) w = checkin env info w).
Proof.
  intros H. split; [by apply dispatch_checkin|].
  intros info Hh. rewrite dispatch_checkin by done.
  unfold bind. by rewrite (info_of_holds _ _ _ _ Hh).
Qed.

Section WritesOnly.
Context {A B : Type}.
Variable key : string.

Lemma reading_writes_only (c : M A) : reading c -> writes_only key c.
Proof. intros H w r w' Hc key' _. by rewrite (H _ _ _ Hc). Qed.

Lemma writes_only_bind (c : M A) (k : A -> M B) :
  writes_only key c -> (forall a, writes_only key (k a)) -> writes_only key (bind c k).
Proof.
  intros Hc Hk w r w'. unfold bind.
  destruct (c w) as [[a|e] w1] eqn:E; specialize (Hc _ _ _ E).
  - intros E' key' Hne. rewrite (Hk _ _ _ _ E' key' Hne). by apply Hc.
  - intros [= <- <-]. exact Hc.
Qed.

Lemma writes_only_try_catch (c : M A) (handler : exn -> M A) :
  writes_only key c -> (forall e, writes_only key (handler e)) ->
  writes_only key (try_catch c handler).
Proof.
  intros Hc Hh w r w'. unfold try_catch.
  destruct (c w) as [[a|e] w1] eqn:E; specialize (Hc _ _ _ E).
  - intros [= <- <-]. exact Hc.
  - intros E' key' Hne. rewrite (Hh _ _ _ _ E' key' Hne). by apply Hc.
Qed.
End WritesOnly.

Lemma writes_only_kv_put key value : writes_only key (kv_put key value).
Proof. intros w r w' [= <- <-] key' Hne; simpl. by rewrite lookup_insert_ne. Qed.

Lemma writes_only_kv_delete key : writes_only key (kv_delete key).
Proof. intros w r w' [= <- <-] key' Hne; simpl. by rewrite lookup_delete_ne. Qed.

Create HintDb own_key.

#[local] Hint Resolve reading_writes_only reading_ret reading_throw reading_emit
  reading_send reading_info_of reading_check_with_user reading_login
  reading_checkin writes_only_kv_put writes_only_kv_delete : own_key.

Ltac own_key :=
  cbv zeta;
  repeat first
    [ solve [auto with own_key]
    | apply writes_only_bind; [| intros ?]
    | apply writes_only_try_catch; [| intros ?]
    | match goal with
      | |- writes_only _ (if ?b then _ else _) => destruct b
      | |- writes_only _ (match ?x with _ => _ end) => destruct x
      end ].

(** X16. A request that is not [/schedule] leaves every key but the one of
    its own chat as it was: no command and no location message reads into
    or writes over another chat's record. *)
Theorem command_touches_own_record_only env json update w r w' :
  (forall text, message_text update = Some text -> startsWith text "/schedule" = false) ->
  fetch env (BodyJson json (Some update)) w = (r, w') ->
  forall key, key <> user_key (Int (message_chat_id update)) ->
    kv w' !! key = kv w !! key.
Proof.
  intros Hs. revert w r w'.
  change (writes_only (user_key (Int (message_chat_id update)))
            (fetch env (BodyJson json (Some update)))).
  unfold fetch. apply writes_only_try_catch; [| intros e; own_key].
  apply writes_only_try_catch; [| intros e; own_key].
  apply writes_only_bind; [| intros _; own_key].
  unfold dispatch. cbv zeta.
  destruct (message_text update) as [text|]; [|own_key].
  rewrite (Hs text eq_refl). own_key.
Qed.


Section ThrowsOnly.
Context {A B : Type}.
Variable P : exn -> Prop.

Lemma throws_only_ret (a : A) : throws_only P (ret a).
Proof. by intros w e w'. Qed.

Lemma throws_only_throw e : P e -> throws_only P (@throw A e).
Proof. by intros H w e' w' [= <- _]. Qed.

Lemma throws_only_bind (c : M A) (k : A -> M B) :
  throws_only P c -> (forall a, throws_only P (k a)) -> throws_only P (bind c k).
Proof.
  intros Hc Hk w e w'. unfold bind.
  destruct (c w) as [[a|e0] w1] eqn:E.
  - apply Hk.
  - intros [= <- _]. by apply (Hc _ _ _ E).
Qed.
End ThrowsOnly.

Lemma throws_only_emit P e : throws_only P (emit e).
Proof. by intros w e' w'. Qed.

Lemma throws_only_info_of env id : throws_only reader_exn (info_of env id).
Proof.
  intros w e w' H. apply info_of_inv in H as [_ H]. by destruct e.
Qed.

Lemma throws_only_check_with_user env id : throws_only reader_exn (check_with_user env id).
Proof.
  unfold check_with_user. apply throws_only_bind; [apply throws_only_info_of|].
  intros info. apply throws_only_emit.
Qed.

Lemma throws_only_sweep_key env now_hh now_mm name users :
  throws_only sweep_exn (sweep_key env now_hh now_mm name users).
Proof.
  assert (Hbody : forall (c : M (flow * list UserInfo)) handler,
             throws_only reader_exn c ->
             (forall e, reader_exn e -> throws_only sweep_exn (handler e)) ->
             throws_only sweep_exn (try_catch c handler)).
  { intros c handler Hc Hh w e w'. unfold try_catch.
    destruct (c w) as [[a|e0] w1] eqn:E; [done|].
    apply Hh. by apply (Hc _ _ _ E). }
  unfold sweep_key. apply Hbody.
  - apply throws_only_bind; [apply throws_only_info_of|]. intros info. cbv zeta.
    destruct (_ >? 10); [apply throws_only_ret|].
    apply throws_only_bind; [|intros ?; apply throws_only_ret].
    destruct (_ >? 0); [|apply throws_only_ret].
    apply throws_only_bind; [by intros w e w'|]. intros _.
    apply throws_only_bind; [apply throws_only_emit|]. intros _.
    apply throws_only_bind; [apply throws_only_check_with_user|]. intros _.
    apply throws_only_ret.
  - intros e He. destruct e; try done.
    all: first
      [ by apply throws_only_throw
      | apply throws_only_bind; [apply throws_only_emit | intros _; apply throws_only_ret] ].
Qed.

Lemma throws_only_sweep_keys env now_hh now_mm keys users :
  throws_only sweep_exn (sweep_keys env now_hh now_mm keys users).
Proof.
  revert users. induction keys as [|name keys IH]; intros users; simpl.
  - apply throws_only_ret.
  - apply throws_only_bind; [apply throws_only_sweep_key|].
    intros [[] users']; [apply IH | apply throws_only_ret].
Qed.

Lemma throws_only_checkin env info : throws_only sweep_exn (checkin env info).
Proof.
  unfold checkin. apply throws_only_bind.
  - intros w e w' H.
    destruct (login_exceptions env (username info) (password info) w e w' H)
      as [[m ->]|[t ->]]; done.
  - intros cookies. apply throws_only_bind; [apply throws_only_emit|]. intros _.
    destruct (gaode_regeo _ _); [by apply throws_only_throw | by apply throws_only_throw |].
    apply throws_only_bind; [apply throws_only_emit|]. intros _.
    destruct (portal_save _ _ _);
      first [apply throws_only_emit | by apply throws_only_throw].
Qed.

Lemma throws_only_checkin_all env users : throws_only sweep_exn (checkin_all env users).
Proof.
  induction users as [|user users IH]; simpl; [apply throws_only_ret|].
  apply throws_only_bind; [apply throws_only_checkin | by intros _].
Qed.

(** X18. What leaves the timer's sweep is a [SyntaxError] or an
    [InvalidUserInfo] of the reader, or a [LoginError], [SyntaxError],
    [TypeError] or [Error] of a check-in, and nothing else; [UserNotFound]
    never does, the sweep returns on it. *)
Theorem sweep_exceptions env w e w' :
  scheduled env w = (Throw e, w') ->
  sweep_exn e /\ (forall id, e <> UserNotFound id).
Proof.
  intros H.
  assert (He : sweep_exn e).
  { revert H. unfold scheduled, do_scheduled. cbv zeta.
    apply throws_only_bind.
    - intros w0 e0 w0'. rewrite sweep_pages_listed. apply throws_only_sweep_keys.
    - intros [[] users]; [|apply throws_only_ret].
      apply throws_only_bind; [apply throws_only_emit|]. intros _.
      apply throws_only_checkin_all. }
  split; [done|]. intros id ->. done.
Qed.

(** X19. [/start], [/info] and [/checkin] never write to the namespace,
    whatever follows the prefix and whatever the outside answers; any text
    that begins with [/start] is answered with the help alone. *)
Theorem commands_that_never_write env chat json w :
  (forall rest,
     fetch env (text_request json chat ("/start" +:+ rest)) w
       = (Ok Success, logged w [Send chat (Text help) false]))
  /\ (forall rest r w',
        fetch env (text_request json chat ("/info" +:+ rest)) w = (r, w') -> kv w' = kv w)
  /\ (forall rest r w',
        startsWith rest "_at " = false ->
        fetch env (text_request json chat ("/checkin" +:+ rest)) w = (r, w') ->
        kv w' = kv w).
Proof.
  split; [|split].
  - intros rest. unfold text_request. rewrite fetch_of_dispatch. by prefix_tests.
  - intros rest r w'. unfold text_request. rewrite fetch_of_dispatch. cbv zeta.
    destruct (dispatch _ _ w) as [r0 w0] eqn:Hd.
    assert (kv w0 = kv w) as Hk.
    { revert Hd. prefix_tests.
      apply reading_bind; [apply reading_send|]. intros _. apply reading_check_with_user. }
    destruct r0 as [[]|e]; [by intros [= <- <-]|].
    destruct e; intros [= <- <-]; done.
  - intros rest r w' Hr. unfold text_request. rewrite fetch_of_dispatch. cbv zeta.
    rewrite dispatch_checkin by done.
    destruct (bind _ _ w) as [r0 w0] eqn:Hd.
    assert (kv w0 = kv w) as Hk.
    { revert Hd. apply reading_bind; [apply reading_info_of|]. intros info.
      apply reading_checkin. }
    destruct r0 as [[]|e]; [by intros [= <- <-]|].
    destruct e; intros [= <- <-]; done.
Qed.

(** ** These theorems on the small world *)

(** With a portal that refuses the login, the second user of a queue of two
    is never tried. *)
Lemma checkin_all_stops_at_first_failure_witness :
  checkin_all refusing_env [sample_info; sample_info] sample_world =
    (Throw (LoginError "Login Failed bad password"),
     logged sample_world [PortalLogin "alice" "secret"]).
Proof.
  refine (checkin_all_stops_at_first_failure refusing_env [] sample_info [sample_info]
            sample_world sample_world _ _ _ _); reflexivity.
Defined.

(** At 17:30 the sweep over the key of chat 42 checks in its record. *)
Lemma sweep_queues_in_listing_order_witness :
  do_scheduled one_key_env sample_world =
    checkin_all one_key_env [sample_info]
      (logged sample_world [ConsoleLog "schedule for 1 users"]).
Proof.
  refine (sweep_queues_in_listing_order one_key_env [sample_info] sample_world _).
  constructor; [|constructor].
  split; [exact sample_world_holds_by_key|]. vm_compute. discriminate.
Defined.

(** Two pages of one key and one page of two keys. *)
Lemma sweep_ignores_page_boundaries_witness :
  do_scheduled (with_listing sample_env (MorePages ["user:42"] (LastPage ["user:7"])))
    sample_world
  = do_scheduled (with_listing sample_env (LastPage ["user:42"; "user:7"])) sample_world.
Proof.
  refine (sweep_ignores_page_boundaries sample_env _ _ sample_world _). reflexivity.
Defined.

(** The sweep that consumes the skip of chat 42. *)
Lemma sweep_only_lowers_skip_witness :
  lowered (kv skipping_world) (kv (snd (do_scheduled one_key_env skipping_world))).
Proof.
  exact (proj1 (sweep_only_lowers_skip one_key_env skipping_world _ _
                  (surjective_pairing _))).
Defined.

Lemma logged_in_world_reachable : reachable logged_in_world.
Proof.
  eapply reach_fetch; [apply reach_init|]. apply surjective_pairing.
Defined.

(** After the login of chat 42 the namespace is well kept. *)
Lemma reachable_namespace_well_kept_witness : well_kept (kv logged_in_world).
Proof.
  exact (proj1 (reachable_namespace_well_kept logged_in_world logged_in_world_reachable)).
Defined.

(** After the login of chat 42, the sweep over its key completes. *)
Lemma sweep_completes_on_own_namespace_witness :
  exists users w1,
    sweep_pages one_key_env 17 30 (LastPage ["user:42"]) [] logged_in_world
      = (Ok (Next, users), w1)
    /\ do_scheduled one_key_env logged_in_world =
         checkin_all one_key_env users
           (logged w1 [ConsoleLog ("schedule for "
                                   +:+ string_of_number (Int (Z.of_nat (length users)))
                                   +:+ " users")]).
Proof.
  refine (sweep_completes_on_own_namespace one_key_env logged_in_world
            logged_in_world_reachable _).
  intros name Hn. apply list_elem_of_singleton in Hn as ->.
  vm_compute. eauto.
Defined.


(** A location message while the geocoder answers JSON of another shape. *)
Example location_with_odd_geocoder :
  fetch odd_geocoder_env
    (BodyJson "{}" (Some (location_update 42 {| longitude := 121 # 1; latitude := 31 # 1 |})))
    sample_world =
    (Throw (InvalidGaodeResp "undefined"),
     logged sample_world [GaodeLookup {| longitude := 121 # 1; latitude := 31 # 1 |}]).
Proof. reflexivity. Qed.

(** [/skip] from a chat that never logged in. *)
Lemma commands_need_a_record_witness :
  fetch sample_env (text_request "{}" 7 "/skip") sample_world
    = (Ok EndWithError, logged sample_world [no_record_notice 7]).
Proof.
  refine (proj1 (commands_need_a_record sample_env 7 "{}" sample_world _) "").
  vm_compute. reflexivity.
Defined.

(** [/checkin_at18:30], without the blank, checks in. *)
Lemma checkin_prefix_takes_the_rest_witness :
  dispatch sample_env (text_update 42 "/checkin_at18:30") sample_world
    = checkin sample_env sample_info sample_world.
Proof.
  refine (proj2 (checkin_prefix_takes_the_rest sample_env 42 "_at18:30" sample_world _)
            sample_info sample_world_holds).
  reflexivity.
Defined.

(** [/skip] from chat 42 leaves the key of chat 7 alone. *)
Lemma command_touches_own_record_only_witness :
  kv (snd (fetch sample_env (text_request "{}" 42 "/skip") sample_world)) !! "user:7"
    = kv sample_world !! "user:7".
Proof.
  refine (command_touches_own_record_only sample_env "{}" (text_update 42 "/skip")
            sample_world _ _ _ (surjective_pairing _) "user:7" _).
  - intros text [= <-]. reflexivity.
  - intros H. vm_compute in H. discriminate.
Defined.


(** The same sweep on the timer throws the [LoginError]. *)
Lemma sweep_exceptions_witness :
  sweep_exn (LoginError "Login Failed bad password").
Proof.
  refine (proj1 (sweep_exceptions refusing_one_key_env sample_world
                   (LoginError "Login Failed bad password")
                   (logged sample_world
                      [ConsoleLog "schedule for 1 users"; PortalLogin "alice" "secret"])
                   _)).
  vm_compute. reflexivity.
Defined.
